(** * Ledger and loan engine of the banking system (src/lao.py)

    A shallow embedding of the [Account], [Transaction], [Bank] and [Loan]
    classes of src/lao.py, together with the part of Python's [decimal]
    module they compute with, and the properties of the ledger and loan
    engine stated and proved (or refuted) over that embedding.

    Modelling conventions.
    - A [Decimal] is a finite decimal number: sign, coefficient, exponent,
      as in the [decimal] module.  NaN and the infinities are left out, and
      the exponent is not bounded (the default context has
      Emax = 999999 and Emin = -999999, far from any amount of money).
    - The module sets [getcontext().prec = 4] when it is loaded (line 13);
      the context's rounding is the default ROUND_HALF_EVEN.  Every
      arithmetic operation of [decimal] rounds its result to that
      precision; comparisons and the [Decimal] constructor are exact.
    - Objects live in a heap; an [Account] is referred to by its location,
      a [Transaction] by the location of its account and its position in
      that account's [transactions] list (every Transaction the engine
      creates is appended to the list of the account it points back to).
    - Amounts reach the methods as [Decimal]s, as the callers in the
      module pass them ([Decimal(input(...))]); the conversion of floats and
      strings in [_validate_amount] is not modelled.
    - Identifiers built from the clock ([dt.datetime.now()]), timestamps
      and descriptions are left out of the records.  [World] holds the
      accounts with the registry [Bank.accounts]; [Bank], further down,
      adds the customers and the loans with their registries. *)

From Stdlib Require Import ZArith NArith QArith Qpower Lia Lqa Bool String.
From stdpp Require Import base option list gmap strings.

Local Open Scope Z_scope.

(** ** Python's [decimal] at the precision of the module *)

Record Decimal := mkDecimal {
  d_sign : bool;   (* _sign: true for negative *)
  d_int  : N;      (* _int: the coefficient, a string of digits *)
  d_exp  : Z       (* _exp *)
}.

(** [getcontext().prec = 4] *)
Definition getcontext_prec : Z := 4.

(** [len(self._int)]: the number of decimal digits of the coefficient
    (one for zero). *)
Fixpoint ndigits_fuel (fuel : nat) (n : N) : Z :=
  match fuel with
  | O => 1
  | S fuel' => if (n <? 10)%N then 1 else 1 + ndigits_fuel fuel' (n / 10)%N
  end.

Definition ndigits (n : N) : Z := ndigits_fuel (S (N.to_nat (N.log2 n))) n.

Definition is_zero (d : Decimal) : bool := (d_int d =? 0)%N.

(** The coefficient with its sign. *)
Definition signed (d : Decimal) : Z :=
  if d_sign d then - Z.of_N (d_int d) else Z.of_N (d_int d).

(** The number a [Decimal] denotes. *)
Definition dval (d : Decimal) : Q := inject_Z (signed d) * (10 # 1) ^ d_exp d.

(** [_round_half_even(self, prec)] on a coefficient of which the last
    [drop] digits go: 1 to round up, 0 when the dropped digits are all
    zero, -1 to truncate with loss. *)
Definition round_half_even (c : N) (drop : Z) : Z :=
  let rest := Z.of_N c mod 10 ^ drop in
  let kept := Z.of_N c / 10 ^ drop in
  let half := 5 * 10 ^ (drop - 1) in
  if (rest =? half) && Z.even kept then -1
  else if half <=? rest then 1
  else if rest =? 0 then 0
  else -1.

(** [_fix(context)]: round to the precision of the context. *)
Definition dfix (d : Decimal) : Decimal :=
  if is_zero d then d
  else
    let len := ndigits (d_int d) in
    if getcontext_prec <? len then
      let drop := len - getcontext_prec in
      let exp_min := d_exp d + drop in
      let changed := round_half_even (d_int d) drop in
      let coeff := Z.of_N (d_int d) / 10 ^ drop in
      if 0 <? changed then
        let coeff := coeff + 1 in
        if getcontext_prec <? ndigits (Z.to_N coeff)
        then mkDecimal (d_sign d) (Z.to_N (coeff / 10)) (exp_min + 1)
        else mkDecimal (d_sign d) (Z.to_N coeff) exp_min
      else mkDecimal (d_sign d) (Z.to_N coeff) exp_min
    else d.

(** The [Inexact] signal of [_fix]: digits other than zeros were lost. *)
Definition inexact (d : Decimal) : bool :=
  negb (is_zero d) &&
  (getcontext_prec <? ndigits (d_int d)) &&
  negb (round_half_even (d_int d) (ndigits (d_int d) - getcontext_prec) =? 0).

(** Build a [Decimal] from a signed coefficient; a zero result takes the
    sign [zsign]. *)
Definition of_signed (zsign : bool) (z : Z) (e : Z) : Decimal :=
  mkDecimal (if z =? 0 then zsign else z <? 0) (Z.abs_N z) e.

(** The exact sum: both operands brought to the smaller exponent.  A zero
    sum of two zeros is negative only when both are; an exact cancellation
    is positive (the rounding is not ROUND_FLOOR). *)
Definition add_exact (x y : Decimal) : Decimal :=
  let e := Z.min (d_exp x) (d_exp y) in
  of_signed (d_sign x && d_sign y)
            (signed x * 10 ^ (d_exp x - e) + signed y * 10 ^ (d_exp y - e)) e.

(** [copy_negate] and [copy_abs] (no rounding). *)
Definition copy_negate (d : Decimal) : Decimal :=
  mkDecimal (negb (d_sign d)) (d_int d) (d_exp d).
Definition copy_abs (d : Decimal) : Decimal :=
  mkDecimal false (d_int d) (d_exp d).

(** [__neg__] before rounding: a zero loses its sign. *)
Definition neg_exact (d : Decimal) : Decimal :=
  if is_zero d then copy_abs d else copy_negate d.

Definition mul_exact (x y : Decimal) : Decimal :=
  mkDecimal (xorb (d_sign x) (d_sign y)) (d_int x * d_int y)%N (d_exp x + d_exp y).

(** [__add__], [__sub__], [__neg__], [__abs__], [__mul__]. *)
Definition dec_add (x y : Decimal) : Decimal := dfix (add_exact x y).
Definition dec_sub (x y : Decimal) : Decimal := dfix (add_exact x (copy_negate y)).
Definition dec_neg (d : Decimal) : Decimal := dfix (neg_exact d).
Definition dec_abs (d : Decimal) : Decimal := dfix (copy_abs d).
Definition dec_mul (x y : Decimal) : Decimal := dfix (mul_exact x y).

(** [_cmp]: the comparison of the numbers denoted, exact. *)
Definition dec_compare (x y : Decimal) : comparison :=
  let e := Z.min (d_exp x) (d_exp y) in
  (signed x * 10 ^ (d_exp x - e) ?= signed y * 10 ^ (d_exp y - e)).

Definition dec_eqb (x y : Decimal) : bool :=
  match dec_compare x y with Eq => true | _ => false end.
Definition dec_ltb (x y : Decimal) : bool :=
  match dec_compare x y with Lt => true | _ => false end.
Definition dec_leb (x y : Decimal) : bool :=
  match dec_compare x y with Gt => false | _ => true end.
Definition dec_gtb (x y : Decimal) : bool := dec_ltb y x.
Definition dec_geb (x y : Decimal) : bool := dec_leb y x.

(** Literals: [D c e] is the positive decimal with coefficient [c] and
    exponent [e] ([Decimal('50.00')] is [D 5000 (-2)]). *)
Definition D (c : N) (e : Z) : Decimal := mkDecimal false c e.


(** ** Exceptions and the monad of methods

    A method that raises keeps the changes it made before: the state comes
    back with the exception. *)

Inductive exn :=
  | InvalidAmountError (msg : string)
  | InsufficientFundsError (msg : string)
  | AccountNotFoundError (msg : string)
  | ValueError (msg : string)
  | AssertionError (msg : string)
  | InvalidOperation            (* decimal.InvalidOperation *)
  | DivisionByZero              (* decimal.DivisionByZero *)
  | DanglingReference.          (* a location that holds no object: no Python
                                   program reaches it *)

Inductive outcome (A : Type) :=
  | Returned (a : A)
  | Raised (e : exn).
Arguments Returned {A} a.
Arguments Raised {A} e.

Definition M (S A : Type) : Type := S → outcome A * S.

Global Instance M_ret {S} : MRet (M S) := λ A a s, (Returned a, s).
Global Instance M_bind {S} : MBind (M S) := λ A B f m s,
  match m s with
  | (Returned a, s') => f a s'
  | (Raised e, s') => (Raised e, s')
  end.

Definition raise {S A} (e : exn) : M S A := λ s, (Raised e, s).
Definition get_state {S} : M S S := λ s, (Returned s, s).
Definition modify {S} (f : S → S) : M S unit := λ s, (Returned tt, f s).
(** An operation of [decimal] that can signal an error. *)
Definition lift_outcome {S A} (o : outcome A) : M S A := λ s, (o, s).

(** The names the specification gives to the failures, as the exceptions
    the code raises for them. *)
Definition InvalidAmount : exn := InvalidAmountError "Amount must be positive".
Definition BelowMinimumDeposit : exn := InvalidAmountError "Minimum deposit is 50.00".
Definition AccountInactive : exn := ValueError "Account is inactive".
Definition BelowMinimum : exn := InvalidAmountError "Minimum withdrawal is 20.00".
Definition ExceedsDailyLimit : exn := InvalidAmountError "Maximum daily withdrawal is 5000.00".
Definition InsufficientFunds : exn := InsufficientFundsError "Insufficient funds for withdrawal".
Definition SameAccount : exn := ValueError "Cannot transfer to the same account".
Definition RecipientInactive : exn := ValueError "Recipient account is inactive".
Definition NotCompleted : exn := ValueError "Cannot reverse a non-completed transaction".
Definition NonZeroBalance : exn := ValueError "Cannot close account with non-zero balance".
Definition LoanInactive : exn := ValueError "Loan is not active".
Definition InvalidPaymentAmount : exn := InvalidAmountError "Payment amount must be positive".
Definition PaymentMismatch : exn :=
  ValueError "Invalid payment amounts: Payment amounts don't add up".

(** [__truediv__]: the quotient to [prec + 1] digits, with a last digit
    that keeps the rounding right when there is a remainder; an exact
    quotient is brought towards the ideal exponent by [strip_to_ideal]. *)
Fixpoint strip_to_ideal (fuel : nat) (coeff exp : Z) : Z * Z :=
  match fuel with
  | O => (coeff, exp)
  | S fuel' =>
      if coeff mod 10 =? 0 then strip_to_ideal fuel' (coeff / 10) (exp + 1)
      else (coeff, exp)
  end.

Definition dec_div (x y : Decimal) : outcome Decimal :=
  let sign := xorb (d_sign x) (d_sign y) in
  if is_zero y then
    if is_zero x then Raised InvalidOperation else Raised DivisionByZero
  else if is_zero x then
    Returned (dfix (mkDecimal sign 0 (d_exp x - d_exp y)))
  else
    let shift := ndigits (d_int y) - ndigits (d_int x) + getcontext_prec + 1 in
    let exp := d_exp x - d_exp y - shift in
    let num := if 0 <=? shift then Z.of_N (d_int x) * 10 ^ shift else Z.of_N (d_int x) in
    let den := if 0 <=? shift then Z.of_N (d_int y) else Z.of_N (d_int y) * 10 ^ (- shift) in
    let coeff := num / den in
    let remainder := num mod den in
    let '(coeff, exp) :=
      if negb (remainder =? 0) then
        (if coeff mod 5 =? 0 then coeff + 1 else coeff, exp)
      else
        strip_to_ideal (Z.to_nat (d_exp x - d_exp y - exp)) coeff exp in
    Returned (dfix (mkDecimal sign (Z.to_N coeff) exp)).

(** [__pow__] with a non-negative integer exponent: the exact power,
    rounded once, which is the correctly rounded result the Python
    implementation of [decimal] computes; the C implementation agrees on
    the powers evaluated below. *)
Definition dec_pow (x : Decimal) (n : N) : outcome Decimal :=
  if (n =? 0)%N then
    if is_zero x then Raised InvalidOperation else Returned (D 1 0)
  else
    let sign := d_sign x && N.odd n in
    if is_zero x then Returned (mkDecimal sign 0 0)
    else Returned (dfix (mkDecimal sign (d_int x ^ n)%N (d_exp x * Z.of_N n))).

(** [_rescale(exp, rounding)] and [quantize(exp)]: the value at the
    exponent of [q].  [quantize] refuses a result whose coefficient has
    more digits than the precision. *)
Definition rescale (d : Decimal) (exp : Z) : Decimal :=
  if is_zero d then mkDecimal (d_sign d) 0 exp
  else if exp <=? d_exp d then
    mkDecimal (d_sign d) (d_int d * Z.to_N (10 ^ (d_exp d - exp)))%N exp
  else
    let digits := ndigits (d_int d) + d_exp d - exp in
    let c := if digits <? 0 then 1%N else d_int d in
    let drop := if digits <? 0 then 1 else exp - d_exp d in
    let changed := round_half_even c drop in
    let coeff := Z.of_N c / 10 ^ drop in
    mkDecimal (d_sign d) (Z.to_N (if changed =? 1 then coeff + 1 else coeff)) exp.

Definition quantize (d q : Decimal) : outcome Decimal :=
  if is_zero d then Returned (dfix (mkDecimal (d_sign d) 0 (d_exp q)))
  else
    let self_adjusted := ndigits (d_int d) + d_exp d - 1 in
    if getcontext_prec <? self_adjusted - d_exp q + 1 then Raised InvalidOperation
    else
      let ans := rescale d (d_exp q) in
      if getcontext_prec <? ndigits (d_int ans) then Raised InvalidOperation
      else Returned (dfix ans).


(** ** Accounts and transactions *)

Record Transaction := mkTransaction {
  amount : Decimal;
  transaction_type : string;  (* "deposit", "withdrawal", "transfer", "reversal" *)
  status : string             (* "completed", then "reversed" *)
}.

Record Account := mkAccount {
  account_id : string;
  account_type : string;
  balance : Decimal;
  transactions : list Transaction;
  is_active : bool
}.

(** A reference to a Transaction: its account and its position in the
    account's list. *)
Definition TxRef : Type := nat * nat.

(** The objects of a run, the registry [Bank.accounts] and the [Inexact]
    flag of the decimal context ([getcontext().flags[Inexact]]; flags are
    raised and never cleared by the engine). *)
Record World := mkWorld {
  heap : list Account;
  accounts : gmap string nat;
  flags_Inexact : bool
}.

Definition MIN_DEPOSIT : Decimal := D 5000 (-2).
Definition MIN_WITHDRAWAL : Decimal := D 2000 (-2).
Definition MAX_DAILY_WITHDRAWAL : Decimal := D 500000 (-2).
Definition LOAN_INTEREST_RATE : Decimal := D 8 (-2).
Definition LOAN_TERM_YEARS : Z := 5.

(** [Account.__init__] and [Transaction.__init__]. *)
Definition Account_init (id account_type : string) : Account :=
  mkAccount id account_type (D 0 (-2)) [] true.
Definition Transaction_init (amount : Decimal) (transaction_type : string) : Transaction :=
  mkTransaction amount transaction_type "completed".

Definition set_balance (b : Decimal) (a : Account) : Account :=
  mkAccount (account_id a) (account_type a) b (transactions a) (is_active a).
Definition set_is_active (v : bool) (a : Account) : Account :=
  mkAccount (account_id a) (account_type a) (balance a) (transactions a) v.
Definition transactions_append (t : Transaction) (a : Account) : Account :=
  mkAccount (account_id a) (account_type a) (balance a) (transactions a ++ [t]) (is_active a).
Definition set_status (i : nat) (s : string) (a : Account) : Account :=
  mkAccount (account_id a) (account_type a) (balance a)
    (alter (λ t, mkTransaction (amount t) (transaction_type t) s) i (transactions a))
    (is_active a).

Definition set_heap (h : list Account) (w : World) : World :=
  mkWorld h (accounts w) (flags_Inexact w).

(** Reading and updating the object at a location. *)
Definition read (self : nat) : M World Account := λ w,
  match heap w !! self with
  | Some a => (Returned a, w)
  | None => (Raised DanglingReference, w)
  end.
Definition update (self : nat) (f : Account → Account) : M World unit :=
  modify (λ w, set_heap (alter f self (heap w)) w).
Definition read_transaction (self : TxRef) : M World Transaction :=
  a ← read self.1;
  match transactions a !! self.2 with
  | Some t => mret t
  | None => raise DanglingReference
  end.

(** Arithmetic in the context: the result, and the [Inexact] flag raised
    when rounding lost digits. *)
Definition signal (d : Decimal) : M World unit :=
  modify (λ w, mkWorld (heap w) (accounts w) (flags_Inexact w || inexact d)).
Definition ctx_add (x y : Decimal) : M World Decimal :=
  signal (add_exact x y);; mret (dec_add x y).
Definition ctx_sub (x y : Decimal) : M World Decimal :=
  signal (add_exact x (copy_negate y));; mret (dec_sub x y).
Definition ctx_neg (x : Decimal) : M World Decimal :=
  signal (neg_exact x);; mret (dec_neg x).

(** [self.transactions.append(transaction)]; gives the reference of the
    appended Transaction. *)
Definition append (self : nat) (t : Transaction) : M World TxRef :=
  a ← read self;
  update self (transactions_append t);;
  mret (self, length (transactions a)).

(** [Account._validate_amount]; the amount is already a [Decimal]. *)
Definition _validate_amount (amount : Decimal) : M World Decimal :=
  if dec_leb amount (D 0 (-2)) then raise InvalidAmount else mret amount.

(** [Account.deposit] *)
Definition deposit (self : nat) (amount : Decimal) : M World TxRef :=
  amount ← _validate_amount amount;
  if dec_ltb amount MIN_DEPOSIT then raise BelowMinimumDeposit
  else
    let transaction := Transaction_init amount "deposit" in
    a ← read self;
    b ← ctx_add (balance a) amount;
    update self (set_balance b);;
    append self transaction.

(** [Account.withdraw] *)
Definition withdraw (self : nat) (amount : Decimal) : M World TxRef :=
  amount ← _validate_amount amount;
  a ← read self;
  if negb (is_active a) then raise AccountInactive
  else if dec_ltb amount MIN_WITHDRAWAL then raise BelowMinimum
  else if dec_gtb amount MAX_DAILY_WITHDRAWAL then raise ExceedsDailyLimit
  else if dec_gtb amount (balance a) then raise InsufficientFunds
  else
    negated ← ctx_neg amount;
    let transaction := Transaction_init negated "withdrawal" in
    b ← ctx_sub (balance a) amount;
    update self (set_balance b);;
    append self transaction.

(** [Account.transfer] *)
Definition transfer (self : nat) (amount : Decimal) (recipient : nat) : M World TxRef :=
  amount ← _validate_amount amount;
  if bool_decide (self = recipient) then raise SameAccount
  else
    r ← read recipient;
    if negb (is_active r) then raise RecipientInactive
    else
      withdrawal ← withdraw self amount;
      deposit_ ← deposit recipient amount;
      negated ← ctx_neg amount;
      let transaction := Transaction_init negated "transfer" in
      append self transaction.

(** [Transaction.reverse] *)
Definition reverse (self : TxRef) : M World TxRef :=
  t ← read_transaction self;
  if negb (String.eqb (status t) "completed") then raise NotCompleted
  else
    negated ← ctx_neg (amount t);
    let reversal := Transaction_init negated "reversal" in
    a ← read self.1;
    b ← ctx_add (balance a) (amount t);
    update self.1 (set_balance b);;
    r ← append self.1 reversal;
    update self.1 (set_status self.2 "reversed");;
    mret r.

(** [Bank.get_account], [Bank.close_account], [Bank.transfer_funds] *)
Definition get_account (account_id : string) : M World nat := λ w,
  match accounts w !! account_id with
  | Some l => (Returned l, w)
  | None => (Raised (AccountNotFoundError ("Account " +:+ account_id +:+ " not found")), w)
  end.

Definition close_account (account_id : string) : M World unit :=
  account ← get_account account_id;
  a ← read account;
  if negb (dec_eqb (balance a) (D 0 0)) then raise NonZeroBalance
  else
    update account (set_is_active false);;
    modify (λ w, mkWorld (heap w) (delete account_id (accounts w)) (flags_Inexact w)).

Definition transfer_funds (from_account_id to_account_id : string) (amount : Decimal)
  : M World TxRef :=
  from_account ← get_account from_account_id;
  to_account ← get_account to_account_id;
  transfer from_account amount to_account.

(** ** Loans *)

Global Instance outcome_ret : MRet outcome := λ A a, Returned a.
Global Instance outcome_bind : MBind outcome := λ A B f o,
  match o with
  | Returned a => f a
  | Raised e => Raised e
  end.

Record LoanPayment := mkLoanPayment {
  payment_amount : Decimal;
  principal : Decimal;
  interest : Decimal
}.

Record Loan := mkLoan {
  original_amount : Decimal;
  remaining_amount : Decimal;
  interest_rate : Decimal;
  term_months : Z;
  payments : list LoanPayment;
  loan_is_active : bool
}.

(** A row of the amortization schedule: the dict with keys 'month',
    'payment', 'principal', 'interest', 'balance'. *)
Record ScheduleRow := mkScheduleRow {
  row_month : Z;
  row_payment : Decimal;
  row_principal : Decimal;
  row_interest : Decimal;
  row_balance : Decimal
}.

(** [Loan.__init__]: the assertions on the parameters. *)
Definition Loan_init (amount interest_rate : Decimal) (term_years : Z) : outcome Loan :=
  if negb (dec_gtb amount (D 0 0)) then
    Raised (AssertionError "Loan amount must be positive")
  else if negb (dec_gtb interest_rate (D 0 0)) then
    Raised (AssertionError "Interest rate must be positive")
  else if negb (0 <? term_years) then
    Raised (AssertionError "Loan term must be at least 1 year")
  else Returned (mkLoan amount amount interest_rate (term_years * 12) [] true).

(** [LoanPayment.__init__]: the assertion that the parts add up, turned
    into a [ValueError]. *)
Definition LoanPayment_init (amount principal interest : Decimal) : outcome LoanPayment :=
  if dec_ltb (dec_abs (dec_sub (dec_add principal interest) amount)) (D 1 (-2))
  then Returned (mkLoanPayment amount principal interest)
  else Raised PaymentMismatch.

(** [Loan.calculate_monthly_payment] *)
Definition calculate_monthly_payment (self : Loan) : outcome Decimal :=
  monthly_rate ← dec_div (interest_rate self) (D 12 0);
  factor ← dec_pow (dec_add (D 1 0) monthly_rate) (Z.to_N (term_months self));
  payment ← dec_div (dec_mul (dec_mul (original_amount self) monthly_rate) factor)
                    (dec_sub factor (D 1 0));
  quantize payment (D 1 (-2)).

(** [Loan.make_payment]; the loan is the state ([loan_is_active] is its
    [is_active], [payment_amount] the [amount] of a LoanPayment). *)
Definition make_payment (amount : Decimal) : M Loan LoanPayment :=
  self ← get_state;
  if negb (loan_is_active self) then raise LoanInactive
  else if dec_leb amount (D 0 0) then raise InvalidPaymentAmount
  else
    let amount :=
      if dec_gtb amount (remaining_amount self) then remaining_amount self else amount in
    monthly_rate ← lift_outcome (dec_div (interest_rate self) (D 12 0));
    let interest := dec_mul (remaining_amount self) monthly_rate in
    let '(principal, interest) :=
      if dec_leb amount interest then (D 0 0, amount)
      else (dec_sub amount interest, interest) in
    payment ← lift_outcome (LoanPayment_init amount principal interest);
    modify (λ l, mkLoan (original_amount l) (dec_sub (remaining_amount l) principal)
                   (interest_rate l) (term_months l) (payments l ++ [payment])
                   (loan_is_active l));;
    modify (λ l, if dec_leb (remaining_amount l) (D 0 0)
                 then mkLoan (original_amount l) (remaining_amount l) (interest_rate l)
                        (term_months l) (payments l) false
                 else l);;
    mret payment.

(** The loop of [Loan.generate_amortization_schedule] over the months
    left, with the variables [balance], [monthly_payment] and [schedule]
    it carries. *)
Fixpoint schedule_loop (self : Loan) (monthly_rate : Decimal) (months : list Z)
    (balance monthly_payment : Decimal) (schedule : list ScheduleRow) : list ScheduleRow :=
  match months with
  | [] => schedule
  | month :: months' =>
      let interest := dec_mul balance monthly_rate in
      let principal := dec_sub monthly_payment interest in
      let '(principal, monthly_payment) :=
        if month =? term_months self then (balance, dec_add balance interest)
        else (principal, monthly_payment) in
      let balance := dec_sub balance principal in
      let schedule :=
        schedule ++ [mkScheduleRow month monthly_payment principal interest
                       (if dec_gtb (D 0 0) balance then D 0 0 else balance)] in
      if dec_leb balance (D 0 0) then schedule
      else schedule_loop self monthly_rate months' balance monthly_payment schedule
  end.

(** [range(1, self.term_months + 1)] *)
Definition month_range (term_months : Z) : list Z :=
  map Z.of_nat (seq 1 (Z.to_nat term_months)).

(** [Loan.generate_amortization_schedule] *)
Definition generate_amortization_schedule (self : Loan) : outcome (list ScheduleRow) :=
  monthly_payment ← calculate_monthly_payment self;
  monthly_rate ← dec_div (interest_rate self) (D 12 0);
  mret (schedule_loop self monthly_rate (month_range (term_months self))
          (original_amount self) monthly_payment []).

(** ** Sequences of ledger operations *)

Inductive operation :=
  | Deposit (account : nat) (amount : Decimal)
  | Withdraw (account : nat) (amount : Decimal)
  | Transfer (account : nat) (amount : Decimal) (recipient : nat).

(** The state after an operation, whether it returned or raised. *)
Definition perform (w : World) (o : operation) : World :=
  match o with
  | Deposit a x => (deposit a x w).2
  | Withdraw a x => (withdraw a x w).2
  | Transfer a x r => (transfer a x r w).2
  end.

Definition run (w : World) (ops : list operation) : World := foldl perform w ops.

(** The signed sum of the amounts of a list of Transactions. *)
Definition ledger_sum (ts : list Transaction) : Q :=
  foldr (λ t acc, dval (amount t) + acc)%Q 0%Q ts.

(** The entries of the ledger other than the records [transfer] adds. *)
Definition is_transfer_record (t : Transaction) : bool :=
  String.eqb (transaction_type t) "transfer".
Definition ledger_entries (ts : list Transaction) : list Transaction :=
  filter (λ t, is_transfer_record t = false) ts.

(** Worlds for the examples: fresh accounts, registered in the bank. *)
Definition two_accounts : World :=
  mkWorld [Account_init "ACC-2001" "checking"; Account_init "ACC-2003" "checking"]
          (<["ACC-2001" := 0%nat]> (<["ACC-2003" := 1%nat]> ∅)) false.

(** The ledger of an account is consistent when its balance is the sum of
    its entries, the records added by [transfer] left aside. *)
Definition ledger_ok (a : Account) : Prop :=
  (dval (balance a) == ledger_sum (ledger_entries (transactions a)))%Q.

(** A decimal that denotes no negative number: no minus sign, or a zero. *)
Definition nonneg (d : Decimal) : Prop := d_sign d = false ∨ d_int d = 0%N.

(** A row of a schedule is in order when its balance entry is not
    negative and, in the last month, its payment is its principal plus its
    interest. *)
Definition row_ok (self : Loan) (r : ScheduleRow) : Prop :=
  dec_leb (D 0 0) (row_balance r) = true ∧
  (row_month r = term_months self →
   row_payment r = dec_add (row_principal r) (row_interest r)).

(** Loans for the examples: the loan of the specification's scenario
    (10000.00 at 8% over 5 years), a smaller one and one whose amount has
    seven significant digits. *)
Definition spec_loan : Loan :=
  mkLoan (D 1000000 (-2)) (D 1000000 (-2)) LOAN_INTEREST_RATE 60 [] true.
Definition small_loan : Loan :=
  mkLoan (D 100000 (-2)) (D 100000 (-2)) LOAN_INTEREST_RATE 60 [] true.
Definition odd_loan : Loan :=
  mkLoan (D 1999990 (-2)) (D 1999990 (-2)) LOAN_INTEREST_RATE 60 [] true.

(** ** Histories and remaining payments *)

(** [l[start:]] on a Python list: a negative start counts from the end,
    and a start outside the list is brought back to its bounds. *)
Definition slice_from {A} (l : list A) (start : Z) : list A :=
  let n := Z.of_nat (length l) in
  drop (Z.to_nat (if start <? 0 then Z.max (n + start) 0 else Z.min start n)) l.

(** [Account.get_transaction_history]: [None] is the missing limit.  The
    list holds the Transactions of the ledger as they are at the call. *)
Definition get_transaction_history (self : Account) (limit : option Z) : list Transaction :=
  match limit with
  | Some limit => slice_from (transactions self) (- limit)
  | None => transactions self
  end.

(** [Loan.get_remaining_payments] *)
Definition get_remaining_payments (self : Loan) : outcome (list ScheduleRow) :=
  amortization ← generate_amortization_schedule self;
  let payments_made := length (payments self) in
  if (length amortization <=? payments_made)%nat then mret []
  else mret (drop payments_made amortization).

(** ** Customers and the bank *)

(** A Python dict with string keys: the pairs in the order of insertion.
    Setting a key that is present replaces its value where it stands. *)
Fixpoint dict_get {V} (k : string) (d : list (string * V)) : option V :=
  match d with
  | [] => None
  | (k', v) :: d' => if String.eqb k k' then Some v else dict_get k d'
  end.

Fixpoint dict_set {V} (k : string) (v : V) (d : list (string * V)) : list (string * V) :=
  match d with
  | [] => [(k, v)]
  | (k', v') :: d' =>
      if String.eqb k k' then (k', v) :: d' else (k', v') :: dict_set k v d'
  end.

Definition dict_mem {V} (k : string) (d : list (string * V)) : bool :=
  match dict_get k d with Some _ => true | None => false end.

Definition dict_values {V} (d : list (string * V)) : list V := map snd d.

Record Customer := mkCustomer {
  customer_id : string;
  customer_name : string;
  customer_email : string;
  customer_phone : string;
  customer_accounts : list (string * nat);   (* Customer.accounts *)
  customer_loans : list nat                  (* Customer.loans *)
}.

(** [Customer.__init__] *)
Definition Customer_init (id name email phone : string) : Customer :=
  mkCustomer id name email phone [] [].

(** The exceptions of the registry: those of the engine and the two
    classes that only the registry meets. *)
Inductive bank_exn :=
  | EngineError (e : exn)
  | CustomerNotFoundError (msg : string)
  | StopIteration.

Inductive result (A : Type) :=
  | Ok (a : A)
  | Err (e : bank_exn).
Arguments Ok {A} a.
Arguments Err {A} e.

(** A bank with the objects it reaches: the accounts, [Bank.accounts] and
    the decimal flags are those of [World]; [account_customer] holds the
    [customer] of the Account at each location; customers and loans live
    in heaps of their own, under the registries [Bank.customers] and
    [Bank.loans]. *)
Record Bank := mkBank {
  world : World;
  account_customer : gmap nat nat;
  customer_heap : list Customer;
  customers : gmap string nat;
  loan_heap : list Loan;
  loans : gmap string nat
}.

Definition BankM (A : Type) : Type := Bank → result A * Bank.

Global Instance BankM_ret : MRet BankM := λ A a b, (Ok a, b).
Global Instance BankM_bind : MBind BankM := λ A B f m b,
  match m b with
  | (Ok a, b') => f a b'
  | (Err e, b') => (Err e, b')
  end.

Definition bank_raise {A} (e : bank_exn) : BankM A := λ b, (Err e, b).
Definition bank_modify (f : Bank → Bank) : BankM unit := λ b, (Ok tt, f b).
Definition bank_get : BankM Bank := λ b, (Ok b, b).

Definition set_world (w : World) (b : Bank) : Bank :=
  mkBank w (account_customer b) (customer_heap b) (customers b) (loan_heap b) (loans b).
Definition set_customer_heap (h : list Customer) (b : Bank) : Bank :=
  mkBank (world b) (account_customer b) h (customers b) (loan_heap b) (loans b).
Definition set_customers (r : gmap string nat) (b : Bank) : Bank :=
  mkBank (world b) (account_customer b) (customer_heap b) r (loan_heap b) (loans b).
Definition set_loan_heap (h : list Loan) (b : Bank) : Bank :=
  mkBank (world b) (account_customer b) (customer_heap b) (customers b) h (loans b).
Definition set_loans (r : gmap string nat) (b : Bank) : Bank :=
  mkBank (world b) (account_customer b) (customer_heap b) (customers b) (loan_heap b) r.

(** A method of the engine, run on the accounts of the bank. *)
Definition engine {A} (m : M World A) : BankM A := λ b,
  match m (world b) with
  | (Returned a, w) => (Ok a, set_world w b)
  | (Raised e, w) => (Err (EngineError e), set_world w b)
  end.


Definition read_customer (self : nat) : BankM Customer := λ b,
  match customer_heap b !! self with
  | Some c => (Ok c, b)
  | None => (Err (EngineError DanglingReference), b)
  end.
Definition update_customer (self : nat) (f : Customer → Customer) : BankM unit :=
  bank_modify (λ b, set_customer_heap (alter f self (customer_heap b)) b).

(** The constructors [Customer(...)], [Account(...)] and [Loan(...)] as
    allocations. *)
Definition new_customer (id name email phone : string) : BankM nat := λ b,
  (Ok (length (customer_heap b)),
   set_customer_heap (customer_heap b ++ [Customer_init id name email phone]) b).

Definition new_account (id : string) (customer : nat) (account_type : string) : BankM nat :=
  λ b,
  let l := length (heap (world b)) in
  (Ok l,
   mkBank (set_heap (heap (world b) ++ [Account_init id account_type]) (world b))
          (<[l := customer]> (account_customer b))
          (customer_heap b) (customers b) (loan_heap b) (loans b)).

Definition new_loan (amount interest_rate : Decimal) (term_years : Z) : BankM nat := λ b,
  match Loan_init amount interest_rate term_years with
  | Raised e => (Err (EngineError e), b)
  | Returned l => (Ok (length (loan_heap b)), set_loan_heap (loan_heap b ++ [l]) b)
  end.

(** [Customer.add_account] *)
Definition Customer_add_account (self account : nat) : BankM unit :=
  a ← engine (read account);
  c ← read_customer self;
  if dict_mem (account_id a) (customer_accounts c) then
    bank_raise (EngineError (ValueError "Account already exists for this customer"))
  else
    update_customer self (λ c,
      mkCustomer (customer_id c) (customer_name c) (customer_email c) (customer_phone c)
        (dict_set (account_id a) account (customer_accounts c)) (customer_loans c)).

(** [Customer.get_account] *)
Definition Customer_get_account (self : nat) (account_id : string) : BankM nat :=
  c ← read_customer self;
  match dict_get account_id (customer_accounts c) with
  | Some account => mret account
  | None =>
      bank_raise (EngineError
        (AccountNotFoundError ("Account " +:+ account_id +:+ " not found")))
  end.

(** [Customer.add_loan] *)
Definition Customer_add_loan (self loan : nat) : BankM unit :=
  update_customer self (λ c,
    mkCustomer (customer_id c) (customer_name c) (customer_email c) (customer_phone c)
      (customer_accounts c) (customer_loans c ++ [loan])).

(** [Customer.get_total_balance]: [sum] over the balances in the order of
    the dict, each addition made in the decimal context.  The sum starts
    from the integer 0, which [decimal] reads as [Decimal(0)]; that is
    also the result for a customer without accounts. *)
Fixpoint sum_balances (accounts : list nat) (total : Decimal) : BankM Decimal :=
  match accounts with
  | [] => mret total
  | account :: accounts' =>
      a ← engine (read account);
      total ← engine (ctx_add total (balance a));
      sum_balances accounts' total
  end.

Definition Customer_get_total_balance (self : nat) : BankM Decimal :=
  c ← read_customer self;
  sum_balances (dict_values (customer_accounts c)) (D 0 0).

(** [Bank.add_customer] *)
Definition add_customer (customer : nat) : BankM unit :=
  c ← read_customer customer;
  b ← bank_get;
  match customers b !! customer_id c with
  | Some _ =>
      bank_raise (EngineError
        (ValueError ("Customer with ID " +:+ customer_id c +:+ " already exists")))
  | None => bank_modify (λ b, set_customers (<[customer_id c := customer]> (customers b)) b)
  end.

(** [Bank.get_customer] *)
Definition get_customer (customer_id : string) : BankM nat :=
  b ← bank_get;
  match customers b !! customer_id with
  | Some customer => mret customer
  | None => bank_raise (CustomerNotFoundError ("Customer " +:+ customer_id +:+ " not found"))
  end.

(** [Bank.add_account] *)
Definition add_account (account : nat) : BankM unit :=
  a ← engine (read account);
  b ← bank_get;
  match accounts (world b) !! account_id a with
  | Some _ =>
      bank_raise (EngineError
        (ValueError ("Account with ID " +:+ account_id a +:+ " already exists")))
  | None =>
      bank_modify (λ b,
        set_world (mkWorld (heap (world b)) (<[account_id a := account]> (accounts (world b)))
                     (flags_Inexact (world b))) b);;
      b ← bank_get;
      match account_customer b !! account with
      | Some customer => Customer_add_account customer account
      | None => bank_raise (EngineError DanglingReference)
      end
  end.

(** [Bank.get_loan] *)
Definition get_loan (loan_id : string) : BankM nat :=
  b ← bank_get;
  match loans b !! loan_id with
  | Some loan => mret loan
  | None => bank_raise (EngineError (ValueError ("Loan " +:+ loan_id +:+ " not found")))
  end.

(** [amount * Decimal('0.1')] in the context. *)
Definition ctx_mul (x y : Decimal) : M World Decimal :=
  signal (mul_exact x y);; mret (dec_mul x y).

(** [Bank.create_loan]; [loan_id] is the identifier the code builds from
    the clock. *)
Definition create_loan (loan_id customer_id : string) (amount : Decimal) : BankM nat :=
  customer ← get_customer customer_id;
  total ← Customer_get_total_balance customer;
  tenth ← engine (ctx_mul amount (D 1 (-1)));
  if dec_ltb total tenth then
    bank_raise (EngineError (ValueError "Insufficient creditworthiness for this loan amount"))
  else
    loan ← new_loan amount LOAN_INTEREST_RATE LOAN_TERM_YEARS;
    bank_modify (λ b, set_loans (<[loan_id := loan]> (loans b)) b);;
    Customer_add_loan customer loan;;
    c ← read_customer customer;
    match dict_values (customer_accounts c) with
    | [] => bank_raise StopIteration
    | primary_account :: _ =>
        engine (deposit primary_account amount);;
        mret loan
    end.


(** [Bank._initialize_test_data] and [Bank.__init__] *)
Fixpoint for_each {A} (l : list A) (f : A → BankM unit) : BankM unit :=
  match l with
  | [] => mret tt
  | x :: l' => f x;; for_each l' f
  end.

Definition _initialize_test_data : BankM unit :=
  for_each
    [("CUST-1001", "John Doe", "john.doe@example.com", "555-0101");
     ("CUST-1002", "Jane Smith", "jane.smith@example.com", "555-0102");
     ("CUST-1003", "Robert Johnson", "robert.j@example.com", "555-0103")]
    (λ '(cust_id, name, email, phone),
       customer ← new_customer cust_id name email phone;
       add_customer customer);;
  for_each
    [("ACC-2001", "CUST-1001", "checking");
     ("ACC-2002", "CUST-1001", "savings");
     ("ACC-2003", "CUST-1002", "checking");
     ("ACC-2004", "CUST-1003", "savings")]
    (λ '(acc_id, cust_id, acc_type),
       customer ← get_customer cust_id;
       account ← new_account acc_id customer acc_type;
       add_account account);;
  for_each
    [("ACC-2001", D 100000 (-2));
     ("ACC-2002", D 500000 (-2));
     ("ACC-2003", D 250000 (-2));
     ("ACC-2004", D 300000 (-2))]
    (λ '(acc_id, amount),
       account ← engine (get_account acc_id);
       engine (deposit account amount);;
       mret tt).

Definition empty_bank : Bank :=
  mkBank (mkWorld [] ∅ false) ∅ [] ∅ [] ∅.

Definition Bank_init : result unit * Bank := _initialize_test_data empty_bank.

(** ** Relations between states, for the statements below *)

(** An account as a later state of the same account: the identifier, the
    type and [is_active] are the same and the ledger has only grown at its
    end. *)
Definition continues (a a' : Account) : Prop :=
  account_id a' = account_id a ∧ account_type a' = account_type a ∧
  is_active a' = is_active a ∧ transactions a `prefix_of` transactions a'.

(** Two banks that differ at most in the flags of the decimal context. *)
Definition same_but_flags (b b' : Bank) : Prop :=
  heap (world b') = heap (world b) ∧ accounts (world b') = accounts (world b) ∧
  account_customer b' = account_customer b ∧ customer_heap b' = customer_heap b ∧
  customers b' = customers b ∧ loan_heap b' = loan_heap b ∧ loans b' = loans b.

(** ** The module [banksystem.py]

    The class [BankAccount] and the loop [countdown] of the second module,
    on integer amounts (those of its main block).  What [print] writes is
    returned as a list. *)
Module BankSystem.

Record BankAccount := mkBankAccount {
  owner : string;
  balance : Z
}.

(** [BankAccount.deposit] *)
Definition deposit (amount : Z) : M BankAccount Z :=
  if negb (0 <? amount) then raise (AssertionError "Deposit amount must be greater than zero")
  else
    modify (λ self, mkBankAccount (owner self) (balance self + amount));;
    self ← get_state;
    mret (balance self).

(** The [try] block of [BankAccount.withdraw]. *)
Definition withdraw_try (amount : Z) : M BankAccount unit :=
  if negb (0 <? amount) then
    raise (AssertionError "Withdrawal amount must be greater than zero")
  else
    self ← get_state;
    if balance self <? amount then raise (ValueError "Insufficient funds")
    else modify (λ self, mkBankAccount (owner self) (balance self - amount)).

(** [BankAccount.withdraw]: the two handlers print the message of the
    exception, and the [return] of the [finally] block ends the call in
    every case.  The result is the balance returned and the lines
    printed. *)
Definition withdraw (amount : Z) : M BankAccount (Z * list string) := λ self,
  match withdraw_try amount self with
  | (Returned _, self') => (Returned (balance self', []), self')
  | (Raised (AssertionError msg), self') => (Returned (balance self', [msg]), self')
  | (Raised (ValueError msg), self') => (Returned (balance self', [msg]), self')
  | (Raised _, self') => (Returned (balance self', []), self')
  end.

(** [countdown]: the numbers printed.  Each turn of the loop prints [n]
    and lowers it; the fuel is the number of turns a loop from [n] can
    take. *)
Fixpoint countdown_loop (fuel : nat) (n : Z) : list Z :=
  match fuel with
  | O => []
  | S fuel' =>
      if 0 <? n then
        n :: (let n := n - 1 in if n =? 2 then [] else countdown_loop fuel' n)
      else []
  end.

Definition countdown (n : Z) : list Z := countdown_loop (Z.to_nat n) n.

End BankSystem.

(** Unfolding the monad of methods in a goal. *)
Ltac unfold_monad :=
  repeat progress
    (unfold mbind, M_bind, mret, M_ret, raise, read_transaction, read, append, update,
       modify, signal, ctx_add, ctx_sub, ctx_neg, set_heap; simpl).

(** * Properties *)

(** ** The decimal operations on the numbers of the engine

    What Python prints for the same expressions under
    [getcontext().prec = 4]: [-Decimal('1234.56')] is [Decimal('-1235')],
    [Decimal('5000.00') - Decimal('1234.56')] is [Decimal('3765')],
    [Decimal('0.08') / Decimal('12')] is [Decimal('0.006667')], and so on. *)

Example neg_rounds : dec_neg (D 123456 (-2)) = mkDecimal true 1235 0.
Proof. reflexivity. Qed.
Example sub_rounds : dec_sub (D 500000 (-2)) (D 123456 (-2)) = D 3765 0.
Proof. reflexivity. Qed.
Example add_to_zero : dec_add (D 0 (-2)) (D 100000 (-2)) = D 1000 0.
Proof. reflexivity. Qed.
Example sub_800 : dec_sub (D 1000 0) (D 20000 (-2)) = D 8000 (-1).
Proof. reflexivity. Qed.
Example add_absorbed : dec_add (D 1000 2) (D 5000 (-2)) = D 1000 2.
Proof. reflexivity. Qed.
Example monthly_rate_8pct : dec_div (D 8 (-2)) (D 12 0) = Returned (D 6667 (-6)).
Proof. reflexivity. Qed.
Example factor_60 : dec_pow (dec_add (D 1 0) (D 6667 (-6))) 60 = Returned (D 1520 (-3)).
Proof. vm_compute. reflexivity. Qed.
Example div_payment : dec_div (D 1013 (-1)) (D 520 (-3)) = Returned (D 1948 (-1)).
Proof. reflexivity. Qed.
Example quantize_too_wide : quantize (D 1948 (-1)) (D 1 (-2)) = Raised InvalidOperation.
Proof. reflexivity. Qed.
Example quantize_fits : quantize (D 1948 (-2)) (D 1 (-2)) = Returned (D 1948 (-2)).
Proof. reflexivity. Qed.

Lemma ndigits_fuel_spec fuel : ∀ n : N,
  (N.to_nat (N.log2 n) < fuel)%nat → (0 < n)%N →
  1 <= ndigits_fuel fuel n ∧
  10 ^ (ndigits_fuel fuel n - 1) <= Z.of_N n < 10 ^ ndigits_fuel fuel n.
Proof.
  induction fuel as [|fuel IH]; intros n Hfuel Hn; [lia|].
  simpl. destruct (N.ltb_spec n 10) as [Hlt|Hge].
  - simpl. lia.
  - assert (Hq : (0 < n / 10)%N) by (apply N.div_str_pos; lia).
    assert (Hlog : (N.log2 (n / 10) < N.log2 n)%N).
    { apply N.le_succ_l. rewrite <- N.log2_double by assumption.
      apply N.log2_le_mono.
      pose proof (N.Div0.mul_div_le n 10). lia. }
    destruct (IH (n / 10)%N) as (H1 & Hlo & Hhi); [lia|assumption|].
    set (k := ndigits_fuel fuel (n / 10)) in *.
    replace (1 + k - 1) with (Z.succ (k - 1)) by lia.
    replace (1 + k) with (Z.succ k) by lia.
    rewrite !Z.pow_succ_r by lia.
    rewrite N2Z.inj_div in Hlo, Hhi. change (Z.of_N 10) with 10 in *.
    pose proof (Z.div_mod (Z.of_N n) 10 ltac:(lia)).
    pose proof (Z.mod_pos_bound (Z.of_N n) 10 ltac:(lia)).
    lia.
Qed.

(** [ndigits] is the length of the decimal writing of the coefficient. *)
Lemma ndigits_spec (n : N) :
  (0 < n)%N → 10 ^ (ndigits n - 1) <= Z.of_N n < 10 ^ ndigits n.
Proof. intros Hn. apply ndigits_fuel_spec; [lia|assumption]. Qed.

Section DecimalValues.
Local Open Scope Q_scope.

Lemma ten_nonzero : ~ (10 # 1) == 0.
Proof. discriminate. Qed.

Lemma scale_value (z k e : Z) :
  (0 <= k)%Z → inject_Z (z * 10 ^ k) * (10 # 1) ^ e == inject_Z z * (10 # 1) ^ (e + k).
Proof.
  intros Hk.
  rewrite inject_Z_mult, (Zpower_Qpower 10 k Hk), (Qpower_plus _ e k ten_nonzero).
  change (inject_Z 10) with (10 # 1). ring.
Qed.

Lemma signed_of_signed zsign z e : signed (of_signed zsign z e) = z.
Proof.
  unfold signed, of_signed; simpl.
  destruct (Z.eqb_spec z 0) as [->|Hz].
  - destruct zsign; reflexivity.
  - destruct (Z.ltb_spec z 0); lia.
Qed.

(** The exact operations denote the sum and the opposite. *)
Lemma dval_add_exact x y : dval (add_exact x y) == dval x + dval y.
Proof.
  unfold add_exact, dval at 1. rewrite signed_of_signed. cbn [d_exp of_signed].
  set (e := Z.min (d_exp x) (d_exp y)).
  rewrite inject_Z_plus, Qmult_plus_distr_l.
  rewrite !scale_value by (subst e; lia).
  unfold dval.
  replace (e + (d_exp x - e))%Z with (d_exp x) by lia.
  replace (e + (d_exp y - e))%Z with (d_exp y) by lia.
  reflexivity.
Qed.

Lemma dval_copy_negate x : dval (copy_negate x) == - dval x.
Proof.
  unfold dval, copy_negate, signed; simpl.
  destruct (d_sign x); simpl; rewrite ?inject_Z_opp; ring.
Qed.

Lemma dval_neg_exact x : dval (neg_exact x) == - dval x.
Proof.
  unfold neg_exact, is_zero. destruct (N.eqb_spec (d_int x) 0) as [H0|_].
  - unfold dval, copy_abs, signed; simpl. rewrite H0.
    destruct (d_sign x); simpl; rewrite !Qmult_0_l; reflexivity.
  - apply dval_copy_negate.
Qed.

Lemma round_half_even_exact c drop :
  round_half_even c drop = 0%Z → (Z.of_N c mod 10 ^ drop = 0)%Z.
Proof.
  unfold round_half_even.
  destruct (_ && _); [discriminate|].
  destruct (_ <=? _)%Z; [discriminate|].
  destruct (Z.eqb_spec (Z.of_N c mod 10 ^ drop) 0); [auto|discriminate].
Qed.

(** Rounding that raises no [Inexact] keeps the number. *)
Lemma dval_dfix d : inexact d = false → dval (dfix d) == dval d.
Proof.
  unfold inexact, dfix. destruct (is_zero d); [reflexivity|]. simpl.
  destruct (Z.ltb_spec getcontext_prec (ndigits (d_int d))) as [Hlen|_]; [|reflexivity].
  simpl. rewrite negb_false_iff. intros Hch%Z.eqb_eq.
  rewrite Hch. simpl.
  apply round_half_even_exact in Hch.
  set (drop := (ndigits (d_int d) - getcontext_prec)%Z) in *.
  assert (Hdrop : (0 <= drop)%Z) by (subst drop; lia).
  assert (Hpos : (0 < 10 ^ drop)%Z) by (apply Z.pow_pos_nonneg; lia).
  assert (Hc : (Z.of_N (d_int d) = (Z.of_N (d_int d) / 10 ^ drop) * 10 ^ drop)%Z).
  { rewrite (Z.div_mod (Z.of_N (d_int d)) (10 ^ drop)) at 1 by lia. lia. }
  assert (Hq : (0 <= Z.of_N (d_int d) / 10 ^ drop)%Z) by (apply Z.div_pos; lia).
  unfold dval, signed; simpl. rewrite Z2N.id by assumption.
  destruct (d_sign d).
  - rewrite Hc at 2. rewrite <- Z.mul_opp_l. rewrite scale_value by assumption. reflexivity.
  - rewrite Hc at 2. rewrite scale_value by assumption. reflexivity.
Qed.

Lemma dval_scaled x e :
  (e <= d_exp x)%Z → dval x == inject_Z (signed x * 10 ^ (d_exp x - e)) * (10 # 1) ^ e.
Proof.
  intros He. rewrite scale_value by lia. unfold dval.
  replace (e + (d_exp x - e))%Z with (d_exp x) by lia. reflexivity.
Qed.

(** [dec_compare] compares the numbers denoted. *)
Lemma dec_compare_spec x y : dec_compare x y = (dval x ?= dval y).
Proof.
  unfold dec_compare. set (e := Z.min (d_exp x) (d_exp y)).
  rewrite (Qcompare_comp _ _ (dval_scaled x e ltac:(lia)) _ _ (dval_scaled y e ltac:(lia))).
  set (A := (signed x * 10 ^ (d_exp x - e))%Z). set (B := (signed y * 10 ^ (d_exp y - e))%Z).
  assert (Hp : 0 < (10 # 1) ^ e) by (apply Qpower_0_lt; reflexivity).
  symmetry. destruct (Z.compare_spec A B) as [->|Hlt|Hgt].
  - apply Qeq_alt. reflexivity.
  - apply Qlt_alt. apply Qmult_lt_compat_r; [assumption|]. rewrite <- Zlt_Qlt. assumption.
  - apply Qgt_alt. apply Qmult_lt_compat_r; [assumption|]. rewrite <- Zlt_Qlt. assumption.
Qed.

End DecimalValues.

Section Order.
Local Open Scope Q_scope.

Lemma dec_ltb_spec x y : dec_ltb x y = true ↔ dval x < dval y.
Proof.
  unfold dec_ltb. rewrite dec_compare_spec, Qlt_alt.
  destruct (dval x ?= dval y); split; congruence.
Qed.

Lemma dec_leb_spec x y : dec_leb x y = true ↔ dval x <= dval y.
Proof.
  unfold dec_leb. rewrite dec_compare_spec, Qle_alt.
  destruct (dval x ?= dval y); split; congruence.
Qed.

Lemma dec_ltb_false x y : dec_ltb x y = false ↔ dval y <= dval x.
Proof.
  rewrite <- not_true_iff_false, dec_ltb_spec. split.
  - apply Qnot_lt_le.
  - intros H1 H2. exact (Qlt_not_le _ _ H2 H1).
Qed.

Lemma dec_leb_false x y : dec_leb x y = false ↔ dval y < dval x.
Proof.
  rewrite <- not_true_iff_false, dec_leb_spec. split.
  - apply Qnot_le_lt.
  - intros H1 H2. exact (Qlt_not_le _ _ H1 H2).
Qed.

Lemma dval_zero e : dval (D 0 e) == 0.
Proof. unfold dval, D, signed; simpl. apply Qmult_0_l. Qed.

End Order.

(** ** The methods of [Account] and [Transaction] in closed form *)

Lemma alter_insert (f : Account → Account) (h : list Account) i a :
  h !! i = Some a → alter f i h = <[i := f a]> h.
Proof.
  intros Ha. apply list_eq; intros j. destruct (decide (i = j)) as [<-|Hne].
  - rewrite list_lookup_alter_eq, Ha, list_lookup_insert_eq by eauto using lookup_lt_Some.
    reflexivity.
  - rewrite list_lookup_alter_ne, list_lookup_insert_ne by done. reflexivity.
Qed.

(** [deposit]: the two checks on the amount, then the entry and the
    balance; [is_active] is not read. *)
Lemma deposit_unfold self amount w :
  deposit self amount w =
    if dec_leb amount (D 0 (-2)) then (Raised InvalidAmount, w)
    else if dec_ltb amount MIN_DEPOSIT then (Raised BelowMinimumDeposit, w)
    else match heap w !! self with
         | None => (Raised DanglingReference, w)
         | Some a =>
             (Returned (self, length (transactions a)),
              mkWorld
                (<[self := transactions_append (Transaction_init amount "deposit")
                             (set_balance (dec_add (balance a) amount) a)]> (heap w))
                (accounts w)
                (flags_Inexact w || inexact (add_exact (balance a) amount)))
         end.
Proof.
  unfold deposit, _validate_amount.
  destruct (dec_leb amount (D 0 (-2))); [reflexivity|].
  unfold_monad.
  destruct (dec_ltb amount MIN_DEPOSIT); [reflexivity|].
  unfold_monad.
  destruct (heap w !! self) as [a|] eqn:Ha; [|reflexivity]. simpl.
  rewrite list_lookup_alter_eq, Ha. simpl.
  rewrite (alter_insert _ _ _ _ Ha).
  erewrite alter_insert by (apply list_lookup_insert_eq; eauto using lookup_lt_Some).
  rewrite list_insert_insert_eq. reflexivity.
Qed.

(** [withdraw]: the five failures in the order of the code, then the
    entry of [-amount] and the balance [balance - amount], both computed in
    the decimal context. *)
Lemma withdraw_unfold self amount w :
  withdraw self amount w =
    if dec_leb amount (D 0 (-2)) then (Raised InvalidAmount, w)
    else match heap w !! self with
         | None => (Raised DanglingReference, w)
         | Some a =>
             if negb (is_active a) then (Raised AccountInactive, w)
             else if dec_ltb amount MIN_WITHDRAWAL then (Raised BelowMinimum, w)
             else if dec_gtb amount MAX_DAILY_WITHDRAWAL then (Raised ExceedsDailyLimit, w)
             else if dec_gtb amount (balance a) then (Raised InsufficientFunds, w)
             else
               (Returned (self, length (transactions a)),
                mkWorld
                  (<[self := transactions_append
                               (Transaction_init (dec_neg amount) "withdrawal")
                               (set_balance (dec_sub (balance a) amount) a)]> (heap w))
                  (accounts w)
                  (flags_Inexact w || inexact (neg_exact amount)
                   || inexact (add_exact (balance a) (copy_negate amount))))
         end.
Proof.
  unfold withdraw, _validate_amount.
  destruct (dec_leb amount (D 0 (-2))); [reflexivity|].
  unfold_monad.
  destruct (heap w !! self) as [a|] eqn:Ha; [|reflexivity]. simpl.
  destruct (is_active a); [|reflexivity]. simpl.
  destruct (dec_ltb amount MIN_WITHDRAWAL); [reflexivity|].
  destruct (dec_gtb amount MAX_DAILY_WITHDRAWAL); [reflexivity|].
  destruct (dec_gtb amount (balance a)); [reflexivity|].
  unfold_monad.
  rewrite list_lookup_alter_eq, Ha. simpl.
  rewrite (alter_insert _ _ _ _ Ha).
  erewrite alter_insert by (apply list_lookup_insert_eq; eauto using lookup_lt_Some).
  rewrite list_insert_insert_eq. reflexivity.
Qed.

(** [reverse]: the entry of [-amount], the balance [balance + amount], the
    status of the original. *)
Lemma reverse_unfold self w :
  reverse self w =
    match heap w !! self.1 with
    | None => (Raised DanglingReference, w)
    | Some a =>
        match transactions a !! self.2 with
        | None => (Raised DanglingReference, w)
        | Some t =>
            if negb (String.eqb (status t) "completed") then (Raised NotCompleted, w)
            else
              (Returned (self.1, length (transactions a)),
               mkWorld
                 (<[self.1 := set_status self.2 "reversed"
                                (transactions_append
                                   (Transaction_init (dec_neg (amount t)) "reversal")
                                   (set_balance (dec_add (balance a) (amount t)) a))]>
                    (heap w))
                 (accounts w)
                 (flags_Inexact w || inexact (neg_exact (amount t))
                  || inexact (add_exact (balance a) (amount t))))
        end
    end.
Proof.
  destruct self as [l i]. unfold reverse. unfold_monad.
  destruct (heap w !! l) as [a|] eqn:Ha; [|reflexivity]. simpl.
  destruct (transactions a !! i) as [t|] eqn:Ht; [|reflexivity]. simpl.
  destruct (String.eqb (status t) "completed"); [|reflexivity]. simpl.
  unfold_monad. rewrite Ha. simpl.
  rewrite list_lookup_alter_eq, Ha. simpl.
  rewrite (alter_insert _ _ _ _ Ha).
  erewrite (alter_insert _ (<[_:=_]> _))
    by (apply list_lookup_insert_eq; eauto using lookup_lt_Some).
  rewrite list_insert_insert_eq.
  erewrite (alter_insert _ (<[_:=_]> _))
    by (apply list_lookup_insert_eq; eauto using lookup_lt_Some).
  rewrite list_insert_insert_eq. reflexivity.
Qed.

(** [transfer]: the checks, [withdraw], [deposit], then the record on the
    sender; what [withdraw] changed stays when [deposit] raises. *)
Lemma transfer_unfold self amount recipient w :
  transfer self amount recipient w =
    if dec_leb amount (D 0 (-2)) then (Raised InvalidAmount, w)
    else if bool_decide (self = recipient) then (Raised SameAccount, w)
    else match heap w !! recipient with
         | None => (Raised DanglingReference, w)
         | Some r =>
             if negb (is_active r) then (Raised RecipientInactive, w)
             else match withdraw self amount w with
                  | (Raised e, w1) => (Raised e, w1)
                  | (Returned _, w1) =>
                      match deposit recipient amount w1 with
                      | (Raised e, w2) => (Raised e, w2)
                      | (Returned _, w2) =>
                          match heap w2 !! self with
                          | None =>
                              (Raised DanglingReference,
                               mkWorld (heap w2) (accounts w2)
                                 (flags_Inexact w2 || inexact (neg_exact amount)))
                          | Some a =>
                              (Returned (self, length (transactions a)),
                               mkWorld
                                 (<[self := transactions_append
                                              (Transaction_init (dec_neg amount) "transfer")
                                              a]> (heap w2))
                                 (accounts w2)
                                 (flags_Inexact w2 || inexact (neg_exact amount)))
                          end
                      end
                  end
         end.
Proof.
  unfold transfer, _validate_amount.
  destruct (dec_leb amount (D 0 (-2))); [reflexivity|].
  unfold mbind at 1, M_bind at 1, mret at 1, M_ret at 1.
  destruct (bool_decide (self = recipient)); [reflexivity|].
  unfold mbind at 1, M_bind at 1, read at 1.
  destruct (heap w !! recipient) as [r|]; [|reflexivity].
  destruct (is_active r); [|reflexivity]. cbn [negb].
  unfold mbind at 1, M_bind at 1.
  destruct (withdraw self amount w) as [[r1|e1] w1]; [|reflexivity].
  unfold mbind at 1, M_bind at 1.
  destruct (deposit recipient amount w1) as [[r2|e2] w2]; [|reflexivity].
  unfold_monad.
  destruct (heap w2 !! self) as [a|] eqn:Ha; [|reflexivity]. simpl.
  rewrite (alter_insert _ _ _ _ Ha). reflexivity.
Qed.

(** ** The balance and the sum of the ledger *)

Section Ledger.
Local Open Scope Q_scope.

Lemma ledger_sum_snoc ts t : ledger_sum (ts ++ [t]) == ledger_sum ts + dval (amount t).
Proof.
  induction ts as [|t' ts IH]; simpl.
  - ring.
  - rewrite IH. ring.
Qed.

Lemma ledger_entries_snoc ts t :
  ledger_entries (ts ++ [t]) =
    if is_transfer_record t then ledger_entries ts else ledger_entries ts ++ [t].
Proof.
  unfold ledger_entries. rewrite filter_app.
  destruct (is_transfer_record t) eqn:Ht.
  - rewrite filter_cons_False by (rewrite Ht; discriminate). simpl. apply app_nil_r.
  - rewrite filter_cons_True by assumption. reflexivity.
Qed.

(** Each operation keeps the ledgers consistent as long as the context
    has raised no [Inexact]; the flag is never lowered. *)
Lemma deposit_keeps_ledger self amount w :
  flags_Inexact (deposit self amount w).2 = false →
  flags_Inexact w = false ∧
  (Forall ledger_ok (heap w) → Forall ledger_ok (heap (deposit self amount w).2)).
Proof.
  rewrite deposit_unfold.
  destruct (dec_leb _ _); [tauto|]. destruct (dec_ltb _ _); [tauto|].
  destruct (heap w !! self) as [a|] eqn:Ha; [|tauto]. simpl.
  intros [Hw Hex]%orb_false_elim. split; [assumption|]. intros Hall.
  apply Forall_insert; [assumption|].
  unfold ledger_ok; simpl. rewrite ledger_entries_snoc; simpl.
  rewrite ledger_sum_snoc; simpl.
  unfold dec_add. rewrite (dval_dfix _ Hex), dval_add_exact.
  pose proof (Forall_lookup_1 _ _ _ _ Hall Ha) as Hok. unfold ledger_ok in Hok.
  rewrite Hok. ring.
Qed.

Lemma withdraw_keeps_ledger self amount w :
  flags_Inexact (withdraw self amount w).2 = false →
  flags_Inexact w = false ∧
  (Forall ledger_ok (heap w) → Forall ledger_ok (heap (withdraw self amount w).2)).
Proof.
  rewrite withdraw_unfold.
  destruct (dec_leb _ _); [tauto|].
  destruct (heap w !! self) as [a|] eqn:Ha; [|tauto].
  destruct (negb _); [tauto|]. destruct (dec_ltb _ _); [tauto|].
  destruct (dec_gtb _ _); [tauto|]. destruct (dec_gtb _ _); [tauto|]. simpl.
  intros [[Hw Hneg]%orb_false_elim Hsub]%orb_false_elim. split; [assumption|]. intros Hall.
  apply Forall_insert; [assumption|].
  unfold ledger_ok; simpl. rewrite ledger_entries_snoc; simpl.
  rewrite ledger_sum_snoc; simpl.
  unfold dec_sub, dec_neg.
  rewrite (dval_dfix _ Hsub), (dval_dfix _ Hneg), dval_add_exact, dval_copy_negate,
    dval_neg_exact.
  pose proof (Forall_lookup_1 _ _ _ _ Hall Ha) as Hok. unfold ledger_ok in Hok.
  rewrite Hok. ring.
Qed.

Lemma transfer_keeps_ledger self amount recipient w :
  flags_Inexact (transfer self amount recipient w).2 = false →
  flags_Inexact w = false ∧
  (Forall ledger_ok (heap w) →
   Forall ledger_ok (heap (transfer self amount recipient w).2)).
Proof.
  rewrite transfer_unfold.
  destruct (dec_leb _ _); [tauto|]. destruct (bool_decide _); [tauto|].
  destruct (heap w !! recipient) as [r|]; [|tauto].
  destruct (negb _); [tauto|].
  pose proof (withdraw_keeps_ledger self amount w) as Hwd.
  destruct (withdraw self amount w) as [[r1|e1] w1]; simpl in Hwd; [|exact Hwd].
  pose proof (deposit_keeps_ledger recipient amount w1) as Hdp.
  destruct (deposit recipient amount w1) as [[r2|e2] w2]; simpl in Hdp.
  2:{ simpl. intros H2. destruct (Hdp H2) as [H1 Hk]. destruct (Hwd H1). tauto. }
  assert (Hstep : flags_Inexact w2 = false →
                  flags_Inexact w = false ∧
                  (Forall ledger_ok (heap w) → Forall ledger_ok (heap w2))).
  { intros H2. destruct (Hdp H2) as [H1 Hk]. destruct (Hwd H1). tauto. }
  destruct (heap w2 !! self) as [a|] eqn:Ha; simpl.
  - intros [H2 _]%orb_false_elim. destruct (Hstep H2) as [H0 Hk]. split; [assumption|].
    intros Hall. specialize (Hk Hall).
    apply Forall_insert; [assumption|].
    unfold ledger_ok; simpl. rewrite ledger_entries_snoc; simpl.
    apply (Forall_lookup_1 _ _ _ _ Hk Ha).
  - intros [H2 _]%orb_false_elim. exact (Hstep H2).
Qed.

Lemma perform_keeps_ledger w o :
  flags_Inexact (perform w o) = false →
  flags_Inexact w = false ∧
  (Forall ledger_ok (heap w) → Forall ledger_ok (heap (perform w o))).
Proof.
  destruct o; simpl.
  - apply deposit_keeps_ledger.
  - apply withdraw_keeps_ledger.
  - apply transfer_keeps_ledger.
Qed.

Lemma run_keeps_flag w ops :
  flags_Inexact (run w ops) = false → flags_Inexact w = false.
Proof.
  revert w. induction ops as [|o ops IH]; intros w H; simpl in *; [assumption|].
  apply IH in H. apply perform_keeps_ledger in H. tauto.
Qed.

(** C1, as amended.  Start from accounts whose ledgers are consistent (new
    accounts are) and run any sequence of deposits, withdrawals and
    transfers, each returning or raising.  If the decimal context has
    raised no [Inexact] by then, that is, no result lost digits to the
    rounding at four significant digits, then the balance of every account
    is the signed sum of the amounts of the Transactions in its list other
    than the records tagged "transfer": a transfer leaves on the sender a
    withdrawal entry, which the balance follows, and a second record of
    the same amount, which it does not.  Reversals are not part of the
    sequences. *)
Theorem ledger_sum_without_transfer_records (w : World) (ops : list operation) :
  Forall ledger_ok (heap w) →
  flags_Inexact (run w ops) = false →
  Forall ledger_ok (heap (run w ops)).
Proof.
  revert w. induction ops as [|o ops IH]; intros w Hall Hflag; simpl in *.
  - assumption.
  - apply IH; [|assumption].
    apply perform_keeps_ledger; [|assumption].
    exact (run_keeps_flag _ _ Hflag).
Qed.

Lemma ledger_sum_without_transfer_records_witness :
  let ops := [Deposit 0 (D 100000 (-2)); Withdraw 0 (D 20000 (-2));
              Transfer 0 (D 10000 (-2)) 1] in
  Forall ledger_ok (heap two_accounts) ∧
  flags_Inexact (run two_accounts ops) = false ∧
  Forall ledger_ok (heap (run two_accounts ops)).
Proof.
  assert (H0 : Forall ledger_ok (heap two_accounts)).
  { repeat constructor; vm_compute; reflexivity. }
  split; [exact H0|]. split; [vm_compute; reflexivity|].
  apply (ledger_sum_without_transfer_records two_accounts _ H0).
  vm_compute. reflexivity.
Defined.

(** C1, as specified, fails after a transfer: deposit 1000.00 into a new
    account and transfer 100.00 out of it.  No result was rounded, the
    balance is 900, and the amounts of the three Transactions of the
    account (+1000.00, -100.0, -100.0) add up to 800. *)
Lemma balance_differs_from_ledger_sum_after_transfer :
  let w := run two_accounts [Deposit 0 (D 100000 (-2)); Transfer 0 (D 10000 (-2)) 1] in
  ∃ a, heap w !! 0%nat = Some a ∧ flags_Inexact w = false ∧
       balance a = D 9000 (-1) ∧
       ~ dval (balance a) == ledger_sum (transactions a).
Proof.
  eexists. split; [vm_compute; reflexivity|]. split; [vm_compute; reflexivity|].
  split; [vm_compute; reflexivity|].
  vm_compute. discriminate.
Qed.

(** Rounding alone separates the balance from the entries: a deposit of
    1234.56 into a new account records 1234.56 and leaves a balance of
    1235. *)
Example ledger_sum_lost_to_rounding :
  let w := run two_accounts [Deposit 0 (D 123456 (-2))] in
  ∃ a, heap w !! 0%nat = Some a ∧ flags_Inexact w = true ∧
       balance a = D 1235 0 ∧
       transactions a = [Transaction_init (D 123456 (-2)) "deposit"] ∧
       ~ ledger_ok a.
Proof.
  eexists. split; [vm_compute; reflexivity|]. repeat split.
  vm_compute. discriminate.
Qed.

End Ledger.

(** ** Reversal *)

(** C8.  For every Transaction [t] (at [self] in the ledger of account
    [a]): [reverse] raises the error of a non-completed transaction
    exactly when the status of [t] is not "completed", and then changes
    nothing; when the status is "completed" it returns, the status of [t]
    becomes "reversed", and a second call on the same Transaction raises
    that error and leaves the state as the first call left it. *)
Theorem reverse_only_once (w : World) (self : TxRef) (a : Account) (t : Transaction) :
  heap w !! self.1 = Some a →
  transactions a !! self.2 = Some t →
  ((reverse self w).1 = Raised NotCompleted ↔ status t ≠ "completed") ∧
  (status t ≠ "completed" → reverse self w = (Raised NotCompleted, w)) ∧
  (status t = "completed" →
   ∃ reversal w',
     reverse self w = (Returned reversal, w') ∧
     (read_transaction self w').1 =
       Returned (mkTransaction (amount t) (transaction_type t) "reversed") ∧
     reverse self w' = (Raised NotCompleted, w')).
Proof.
  intros Ha Ht.
  assert (Hfail : status t ≠ "completed" → reverse self w = (Raised NotCompleted, w)).
  { intros Hs. rewrite reverse_unfold, Ha, Ht.
    destruct (String.eqb_spec (status t) "completed"); [contradiction|reflexivity]. }
  assert (Hok : status t = "completed" →
    ∃ reversal w',
      reverse self w = (Returned reversal, w') ∧
      (read_transaction self w').1 =
        Returned (mkTransaction (amount t) (transaction_type t) "reversed") ∧
      reverse self w' = (Raised NotCompleted, w')).
  { intros Hs. rewrite reverse_unfold, Ha, Ht, Hs. simpl.
    eexists _, _. split; [reflexivity|].
    assert (Hl : (self.1 < length (heap w))%nat) by eauto using lookup_lt_Some.
    assert (Hi : (alter (λ t0, mkTransaction (amount t0) (transaction_type t0) "reversed")
                    self.2
                    (transactions a ++ [Transaction_init (dec_neg (amount t)) "reversal"]))
                 !! self.2
                 = Some (mkTransaction (amount t) (transaction_type t) "reversed")).
    { rewrite list_lookup_alter_eq, (lookup_app_l_Some _ _ _ _ Ht). reflexivity. }
    split.
    - unfold read_transaction, read, mbind, M_bind; simpl.
      rewrite list_lookup_insert_eq by assumption. simpl. rewrite Hi. reflexivity.
    - rewrite reverse_unfold. simpl.
      rewrite list_lookup_insert_eq by assumption. simpl. rewrite Hi. reflexivity. }
  split; [|split; assumption].
  split.
  - intros Hr Hs. destruct (Hok Hs) as (r & w' & Heq & _). rewrite Heq in Hr. discriminate.
  - intros Hs. rewrite (Hfail Hs). reflexivity.
Qed.

Lemma reverse_only_once_witness :
  let w := (deposit 0 (D 10000 (-2)) two_accounts).2 in
  ∃ a t, heap w !! 0%nat = Some a ∧ transactions a !! 0%nat = Some t ∧
    status t = "completed" ∧
    ∃ reversal w',
      reverse (0%nat, 0%nat) w = (Returned reversal, w') ∧
      (read_transaction (0%nat, 0%nat) w').1 =
        Returned (mkTransaction (amount t) (transaction_type t) "reversed") ∧
      reverse (0%nat, 0%nat) w' = (Raised NotCompleted, w').
Proof.
  eexists _, _. split; [reflexivity|]. split; [reflexivity|]. split; [reflexivity|].
  exact (proj2 (proj2 (reverse_only_once
    (deposit 0 (D 10000 (-2)) two_accounts).2 (0%nat, 0%nat) _ _ eq_refl eq_refl)) eq_refl).
Defined.

(** C3.  Specified: reversing a completed Transaction [t] takes its
    amount off the balance.  Computed, on a new account after a deposit of
    100.00 (balance 100.0): [reverse] appends the reversal of -100.0 and
    marks the deposit "reversed", but adds the amount once more; the
    balance is 200.0 where the specification has 100.0 - 100.00 = 0. *)
Theorem reverse_adds_the_amount_again :
  let w := (deposit 0 (D 10000 (-2)) two_accounts).2 in
  let r := reverse (0%nat, 0%nat) w in
  balance <$> heap w !! 0%nat = Some (D 1000 (-1)) ∧
  r.1 = Returned (0%nat, 1%nat) ∧
  balance <$> heap r.2 !! 0%nat = Some (D 2000 (-1)) ∧
  transactions <$> heap r.2 !! 0%nat =
    Some [mkTransaction (D 10000 (-2)) "deposit" "reversed";
          Transaction_init (mkDecimal true 1000 (-1)) "reversal"] ∧
  add_exact (D 1000 (-1)) (copy_negate (D 10000 (-2))) = D 0 (-2) ∧
  dec_eqb (D 2000 (-1)) (D 0 (-2)) = false.
Proof. vm_compute. repeat split. Qed.

(** When nothing is lost to rounding, the balance after a reversal is the
    balance before plus the amount of the reversed Transaction. *)
Lemma reverse_exact w self a t r w' :
  heap w !! self.1 = Some a →
  transactions a !! self.2 = Some t →
  reverse self w = (Returned r, w') →
  flags_Inexact w' = false →
  ∃ a', heap w' !! self.1 = Some a' ∧
        (dval (balance a') == dval (balance a) + dval (amount t))%Q.
Proof.
  intros Ha Ht. rewrite reverse_unfold, Ha, Ht.
  destruct (negb _); [discriminate|].
  intros [= <- <-]. simpl. intros [_ Hadd]%orb_false_elim.
  eexists. split; [apply list_lookup_insert_eq; eauto using lookup_lt_Some|]. simpl.
  unfold dec_add. rewrite (dval_dfix _ Hadd). apply dval_add_exact.
Qed.

(** ** Transfers *)

(** C2.  Specified: a transfer changes both accounts or none.  Computed,
    for 30.00 from an account holding 1000 to another active account: the
    amount passes the checks of [withdraw] (the minimum is 20.00), the
    sender is debited and gets the withdrawal entry, and then
    [recipient.deposit] raises, the minimum deposit being 50.00; the
    exception leaves [transfer] with the sender changed (balance 970.0) and
    the recipient untouched. *)
Theorem transfer_below_deposit_minimum_debits_sender :
  let w := (deposit 0 (D 100000 (-2)) two_accounts).2 in
  let r := transfer 0 (D 3000 (-2)) 1 w in
  r.1 = Raised BelowMinimumDeposit ∧
  balance <$> heap w !! 0%nat = Some (D 1000 0) ∧
  balance <$> heap r.2 !! 0%nat = Some (D 9700 (-1)) ∧
  transactions <$> heap r.2 !! 0%nat =
    Some [Transaction_init (D 100000 (-2)) "deposit";
          Transaction_init (mkDecimal true 3000 (-2)) "withdrawal"] ∧
  heap r.2 !! 1%nat = heap w !! 1%nat.
Proof. vm_compute. repeat split. Qed.

(** The same for every amount between the two minimums. *)
Lemma transfer_between_the_minimums w self recipient a r amount :
  self ≠ recipient →
  heap w !! self = Some a →
  heap w !! recipient = Some r →
  is_active a = true →
  is_active r = true →
  dec_leb amount (D 0 (-2)) = false →
  dec_ltb amount MIN_WITHDRAWAL = false →
  dec_gtb amount MAX_DAILY_WITHDRAWAL = false →
  dec_gtb amount (balance a) = false →
  dec_ltb amount MIN_DEPOSIT = true →
  ∃ w', transfer self amount recipient w = (Raised BelowMinimumDeposit, w') ∧
        heap w' !! self =
          Some (transactions_append (Transaction_init (dec_neg amount) "withdrawal")
                  (set_balance (dec_sub (balance a) amount) a)) ∧
        heap w' !! recipient = Some r.
Proof.
  intros Hne Ha Hr Hact Hract Hpos Hmin Hmax Hbal Hdep.
  rewrite transfer_unfold, Hpos, Hr, Hract, withdraw_unfold, Hpos, Ha, Hact, Hmin, Hmax, Hbal.
  rewrite bool_decide_eq_false_2 by assumption. simpl.
  rewrite deposit_unfold, Hpos, Hdep.
  eexists. split; [reflexivity|]. simpl. split.
  - apply list_lookup_insert_eq. eauto using lookup_lt_Some.
  - rewrite list_lookup_insert_ne by assumption. assumption.
Qed.

(** ** Withdrawals and deposits *)

(** C7.  Specified: a successful withdrawal appends an entry of [-amount]
    and takes [amount] off the balance.  Computed, for 1234.56 from an
    account holding 5000: the withdrawal returns, the entry is -1235 and
    the balance 3765, where the specification has -1234.56 and 3765.44; both
    [-amount] and [balance - amount] are rounded to four significant
    digits. *)
Theorem withdraw_rounds_the_entry_and_the_balance :
  let w := (deposit 0 (D 500000 (-2)) two_accounts).2 in
  let r := withdraw 0 (D 123456 (-2)) w in
  balance <$> heap w !! 0%nat = Some (D 5000 0) ∧
  r.1 = Returned (0%nat, 1%nat) ∧
  balance <$> heap r.2 !! 0%nat = Some (D 3765 0) ∧
  transactions <$> heap r.2 !! 0%nat =
    Some [Transaction_init (D 500000 (-2)) "deposit";
          Transaction_init (mkDecimal true 1235 0) "withdrawal"] ∧
  add_exact (D 5000 0) (copy_negate (D 123456 (-2))) = D 376544 (-2) ∧
  dec_eqb (D 3765 0) (D 376544 (-2)) = false ∧
  dec_eqb (mkDecimal true 1235 0) (copy_negate (D 123456 (-2))) = false.
Proof. vm_compute. repeat split. Qed.

(** The scenario of the specification: 1000.00 in, 200.00 out, then 900.00
    refused. *)
Example withdraw_scenario :
  let w1 := (deposit 0 (D 100000 (-2)) two_accounts).2 in
  let w2 := (withdraw 0 (D 20000 (-2)) w1).2 in
  balance <$> heap w1 !! 0%nat = Some (D 1000 0) ∧
  dec_eqb (D 1000 0) (D 100000 (-2)) = true ∧
  balance <$> heap w2 !! 0%nat = Some (D 8000 (-1)) ∧
  dec_eqb (D 8000 (-1)) (D 80000 (-2)) = true ∧
  withdraw 0 (D 90000 (-2)) w2 = (Raised InsufficientFunds, w2).
Proof. vm_compute. repeat split. Qed.

Lemma at_least_minimum_deposit_positive amount :
  dec_ltb amount MIN_DEPOSIT = false → dec_leb amount (D 0 (-2)) = false.
Proof.
  unfold dec_ltb, dec_leb, dec_compare, MIN_DEPOSIT, D, signed; simpl.
  set (e := Z.min (d_exp amount) (-2)).
  assert (Hp : 0 < 10 ^ (-2 - e)) by (apply Z.pow_pos_nonneg; lia).
  set (A := (if d_sign amount then _ else _) * _).
  rewrite Z.mul_0_l.
  destruct (Z.compare_spec A (5000 * 10 ^ (-2 - e))); try discriminate; intros _;
    destruct (Z.compare_spec A 0); try reflexivity; lia.
Qed.

(** [deposit] never reads [is_active]: on any account, active or not, an
    amount of at least 50.00 is accepted, recorded and added to the
    balance in the decimal context. *)
Lemma deposit_ignores_is_active w self a amount :
  heap w !! self = Some a →
  dec_ltb amount MIN_DEPOSIT = false →
  ∃ w', deposit self amount w = (Returned (self, length (transactions a)), w') ∧
        heap w' !! self =
          Some (transactions_append (Transaction_init amount "deposit")
                  (set_balance (dec_add (balance a) amount) a)).
Proof.
  intros Ha Hmin. rewrite deposit_unfold, (at_least_minimum_deposit_positive _ Hmin), Hmin, Ha.
  eexists. split; [reflexivity|]. simpl.
  apply list_lookup_insert_eq. eauto using lookup_lt_Some.
Qed.

Section ExactUpdates.
Local Open Scope Q_scope.

(** When nothing is lost to rounding, a withdrawal records the opposite of
    the amount and takes the amount off the balance. *)
Lemma withdraw_exact w self amt r w' a :
  heap w !! self = Some a →
  withdraw self amt w = (Returned r, w') →
  flags_Inexact w' = false →
  ∃ a' t, heap w' !! self = Some a' ∧
          transactions a' = transactions a ++ [t] ∧
          dval (amount t) == - dval amt ∧
          dval (balance a') == dval (balance a) - dval amt.
Proof.
  intros Ha. rewrite withdraw_unfold, Ha.
  destruct (dec_leb _ _); [discriminate|].
  destruct (negb _); [discriminate|]. destruct (dec_ltb _ _); [discriminate|].
  destruct (dec_gtb _ _); [discriminate|]. destruct (dec_gtb _ _); [discriminate|].
  intros [= <- <-]. simpl.
  intros [[_ Hneg]%orb_false_elim Hsub]%orb_false_elim.
  eexists _, _. split; [apply list_lookup_insert_eq; eauto using lookup_lt_Some|].
  simpl. split; [reflexivity|]. simpl. split.
  - unfold dec_neg. rewrite (dval_dfix _ Hneg). apply dval_neg_exact.
  - unfold dec_sub. rewrite (dval_dfix _ Hsub), dval_add_exact, dval_copy_negate. ring.
Qed.

(** When nothing is lost to rounding, a deposit, on an account active or
    not, raises the balance by the amount. *)
Lemma deposit_exact w self amt r w' a :
  heap w !! self = Some a →
  deposit self amt w = (Returned r, w') →
  flags_Inexact w' = false →
  ∃ a', heap w' !! self = Some a' ∧
        dval (balance a') == dval (balance a) + dval amt ∧
        dval (balance a) < dval (balance a').
Proof.
  intros Ha. rewrite deposit_unfold, Ha.
  destruct (dec_leb amt (D 0 (-2))) eqn:Hpos; [discriminate|].
  destruct (dec_ltb _ _); [discriminate|].
  intros [= <- <-]. simpl. intros [_ Hadd]%orb_false_elim.
  eexists. split; [apply list_lookup_insert_eq; eauto using lookup_lt_Some|]. simpl.
  assert (Hval : dval (dec_add (balance a) amt) == dval (balance a) + dval amt).
  { unfold dec_add. rewrite (dval_dfix _ Hadd). apply dval_add_exact. }
  split; [exact Hval|]. rewrite Hval.
  apply dec_leb_false in Hpos. rewrite dval_zero in Hpos.
  rewrite <- (Qplus_0_r (dval (balance a))) at 1.
  apply Qplus_lt_r. assumption.
Qed.

End ExactUpdates.

(** C10.  Specified: a deposit of at least 50.00 into an inactive account
    succeeds, appends its Transaction and increases the balance.
    Computed, on an account closed with [close_account] and then credited
    with 100000.00 (balance 1.000E+5): a deposit of 50.00 returns and appends
    its Transaction, and the balance stays 1.000E+5, the sum 100050
    rounding back to four significant digits. *)
Theorem deposit_on_closed_account_absorbed :
  let w0 := (close_account "ACC-2001" two_accounts).2 in
  let w1 := (deposit 0 (D 10000000 (-2)) w0).2 in
  let r := deposit 0 (D 5000 (-2)) w1 in
  accounts w0 !! "ACC-2001" = None ∧
  is_active <$> heap w1 !! 0%nat = Some false ∧
  balance <$> heap w1 !! 0%nat = Some (D 1000 2) ∧
  r.1 = Returned (0%nat, 1%nat) ∧
  transactions <$> heap r.2 !! 0%nat =
    Some [Transaction_init (D 10000000 (-2)) "deposit";
          Transaction_init (D 5000 (-2)) "deposit"] ∧
  balance <$> heap r.2 !! 0%nat = Some (D 1000 2).
Proof. vm_compute. repeat split. Qed.

(** ** Loans *)

Example loans_constructed :
  Loan_init (D 1000000 (-2)) LOAN_INTEREST_RATE LOAN_TERM_YEARS = Returned spec_loan ∧
  Loan_init (D 100000 (-2)) LOAN_INTEREST_RATE LOAN_TERM_YEARS = Returned small_loan ∧
  Loan_init (D 1999990 (-2)) LOAN_INTEREST_RATE LOAN_TERM_YEARS = Returned odd_loan.
Proof. repeat split. Qed.

(** C4.  Specified: for the loan of 10000.00 at 8% over 5 years the
    monthly payment is about 202.76, and a first payment of that amount
    carries about 66.67 of interest.  Computed: the monthly rate is
    0.006667, [1 + rate] rounds to 1.007 and its 60th power to 1.520, the
    quotient is 194.8, and [quantize(Decimal('0.01'))] raises
    [InvalidOperation], 194.80 having five digits for a precision of four;
    [make_payment(202.76)] computes the interest 66.67 and the principal
    136.1 and raises too, 136.1 + 66.67 being 202.8 in the context, 0.04
    away from the amount. *)
Theorem monthly_payment_of_the_scenario_loan :
  calculate_monthly_payment spec_loan = Raised InvalidOperation ∧
  dec_div (interest_rate spec_loan) (D 12 0) = Returned (D 6667 (-6)) ∧
  dec_pow (dec_add (D 1 0) (D 6667 (-6))) 60 = Returned (D 1520 (-3)) ∧
  dec_div (dec_mul (dec_mul (original_amount spec_loan) (D 6667 (-6))) (D 1520 (-3)))
          (dec_sub (D 1520 (-3)) (D 1 0)) = Returned (D 1948 (-1)) ∧
  quantize (D 1948 (-1)) (D 1 (-2)) = Raised InvalidOperation ∧
  dec_mul (remaining_amount spec_loan) (D 6667 (-6)) = D 6667 (-2) ∧
  dec_sub (D 20276 (-2)) (D 6667 (-2)) = D 1361 (-1) ∧
  make_payment (D 20276 (-2)) spec_loan = (Raised PaymentMismatch, spec_loan).
Proof. vm_compute. repeat split. Qed.

(** C5.  Specified: a payment above the remaining amount closes the loan.
    Computed, for 5000.00 paid on a new loan of 1000.00 at 8%: the amount
    is capped to 1000.00, of which 6.667 is taken as interest and 993.3 as
    principal; 6.70 remains and the loan stays active. *)
Theorem overpayment_does_not_close_the_loan :
  let r := make_payment (D 500000 (-2)) small_loan in
  r.1 = Returned (mkLoanPayment (D 100000 (-2)) (D 9933 (-1)) (D 6667 (-3))) ∧
  remaining_amount r.2 = D 670 (-2) ∧
  loan_is_active r.2 = true ∧
  dec_eqb (remaining_amount r.2) (D 0 0) = false.
Proof. vm_compute. repeat split. Qed.

(** C6.  Specified: the remaining amount never increases.  Computed, for
    50.00 paid on a new loan of 19999.90 at 8%: the payment is below the
    interest of the month (133.3), the principal is 0, and
    [remaining_amount -= principal] rounds 19999.90 to four significant
    digits: the remaining amount becomes 2.000E+4, above what it was. *)
Theorem remaining_amount_rises_on_an_interest_only_payment :
  let r := make_payment (D 5000 (-2)) odd_loan in
  r.1 = Returned (mkLoanPayment (D 5000 (-2)) (D 0 0) (D 5000 (-2))) ∧
  remaining_amount odd_loan = D 1999990 (-2) ∧
  remaining_amount r.2 = D 2000 1 ∧
  loan_is_active r.2 = true ∧
  dec_gtb (remaining_amount r.2) (remaining_amount odd_loan) = true.
Proof. vm_compute. repeat split. Qed.

(** C9.  Specified: every loan with positive parameters has a schedule
    whose principal entries add up to the original amount.  Computed, for
    the loan of 10000.00 at 8% over 5 years: the schedule starts with
    [calculate_monthly_payment], which raises [InvalidOperation], and no
    row is produced. *)
Theorem no_schedule_for_the_scenario_loan :
  generate_amortization_schedule spec_loan = Raised InvalidOperation.
Proof. vm_compute. reflexivity. Qed.

(** What the schedule does keep when it is produced: [row_ok] for every
    row. *)
Lemma dec_compare_antisym x y : dec_compare y x = CompOpp (dec_compare x y).
Proof. unfold dec_compare. rewrite (Z.min_comm (d_exp y)). apply Z.compare_antisym. Qed.

Lemma schedule_loop_rows self rate months : ∀ balance payment schedule,
  Forall (row_ok self) schedule →
  Forall (row_ok self) (schedule_loop self rate months balance payment schedule).
Proof.
  induction months as [|month months IH]; intros balance payment schedule Hs; simpl.
  - assumption.
  - assert (Hclamp : ∀ b, dec_leb (D 0 0) (if dec_gtb (D 0 0) b then D 0 0 else b) = true).
    { intros b. destruct (dec_gtb (D 0 0) b) eqn:Hb; [reflexivity|].
      unfold dec_gtb, dec_ltb in Hb. unfold dec_leb.
      rewrite (dec_compare_antisym b). destruct (dec_compare b (D 0 0)); simpl; congruence. }
    destruct (Z.eqb_spec month (term_months self)) as [Heq|Hne];
      match goal with
      | |- context [if ?c then _ else schedule_loop _ _ _ ?b ?p ?s] =>
          assert (Hs' : Forall (row_ok self) s);
          [apply Forall_app; split; [assumption|];
           constructor; [|constructor];
           split; simpl; [apply Hclamp | intros; first [reflexivity | congruence]]
          | destruct c; [exact Hs' | apply IH; exact Hs'] ]
      end.
Qed.

Lemma schedule_rows self rows :
  generate_amortization_schedule self = Returned rows → Forall (row_ok self) rows.
Proof.
  unfold generate_amortization_schedule, mbind, outcome_bind, mret, outcome_ret.
  destruct (calculate_monthly_payment self); [|discriminate].
  destruct (dec_div _ _); [|discriminate].
  intros [= <-]. apply schedule_loop_rows. constructor.
Qed.

(** [make_payment] in closed form. *)
Lemma make_payment_unfold amt self :
  make_payment amt self =
    if negb (loan_is_active self) then (Raised LoanInactive, self)
    else if dec_leb amt (D 0 0) then (Raised InvalidPaymentAmount, self)
    else
      let capped :=
        if dec_gtb amt (remaining_amount self) then remaining_amount self else amt in
      match dec_div (interest_rate self) (D 12 0) with
      | Raised e => (Raised e, self)
      | Returned monthly_rate =>
          let due := dec_mul (remaining_amount self) monthly_rate in
          let p := if dec_leb capped due then D 0 0 else dec_sub capped due in
          let i := if dec_leb capped due then capped else due in
          match LoanPayment_init capped p i with
          | Raised e => (Raised e, self)
          | Returned payment =>
              (Returned payment,
               mkLoan (original_amount self) (dec_sub (remaining_amount self) p)
                 (interest_rate self) (term_months self) (payments self ++ [payment])
                 (if dec_leb (dec_sub (remaining_amount self) p) (D 0 0) then false
                  else loan_is_active self))
          end
      end.
Proof.
  unfold make_payment, mbind, M_bind, get_state, raise, lift_outcome, modify, mret, M_ret.
  destruct (loan_is_active self) eqn:Hact; [|reflexivity]. simpl.
  destruct (dec_leb amt (D 0 0)); [reflexivity|].
  destruct (dec_div (interest_rate self) (D 12 0)) as [monthly_rate|e]; [|reflexivity].
  simpl.
  destruct (dec_leb _ (dec_mul _ _)); simpl;
    (destruct (LoanPayment_init _ _ _); [|reflexivity]); simpl;
    destruct (dec_leb (dec_sub _ _) (D 0 0)); rewrite ?Hact; reflexivity.
Qed.

Section LoanOrder.
Local Open Scope Q_scope.

Lemma pow10_pos e : 0 < (10 # 1) ^ e.
Proof. apply Qpower_0_lt. reflexivity. Qed.

Lemma dval_nonneg d : nonneg d → 0 <= dval d.
Proof.
  unfold nonneg, dval, signed. intros [Hs|Hz].
  - rewrite Hs. apply Qmult_le_0_compat.
    + change 0 with (inject_Z 0). rewrite <- Zle_Qle. lia.
    + apply Qlt_le_weak, pow10_pos.
  - rewrite Hz. destruct (d_sign d); simpl; rewrite Qmult_0_l; apply Qle_refl.
Qed.

Lemma nonneg_dval d : 0 <= dval d → nonneg d.
Proof.
  unfold nonneg, dval, signed. intros H.
  destruct (d_sign d); [|left; reflexivity]. right.
  destruct (N.eq_dec (d_int d) 0%N) as [|Hne]; [assumption|exfalso].
  assert (Hneg : inject_Z (- Z.of_N (d_int d)) < 0).
  { change 0 with (inject_Z 0). rewrite <- Zlt_Qlt. lia. }
  pose proof (pow10_pos (d_exp d)) as Hp.
  assert (inject_Z (- Z.of_N (d_int d)) * (10 # 1) ^ d_exp d < 0).
  { rewrite <- (Qmult_0_l ((10 # 1) ^ d_exp d)). apply Qmult_lt_compat_r; assumption. }
  lra.
Qed.

Lemma dfix_nonneg d : nonneg d → nonneg (dfix d).
Proof.
  unfold nonneg, dfix, is_zero. intros [Hs|Hz].
  - destruct (_ =? _)%N; [left; assumption|].
    repeat match goal with |- context [if ?c then _ else _] => destruct c end;
      left; assumption.
  - rewrite Hz. simpl. right. assumption.
Qed.

Lemma dec_mul_nonneg x y : nonneg x → nonneg y → nonneg (dec_mul x y).
Proof.
  intros Hx Hy. apply dfix_nonneg. unfold nonneg, mul_exact in *; simpl.
  destruct Hx as [-> | ->], Hy as [-> | ->]; simpl; auto.
  right. apply N.mul_0_r.
Qed.

Lemma dec_div_nonneg x q : nonneg x → dec_div x (D 12 0) = Returned q → nonneg q.
Proof.
  unfold dec_div. simpl. intros Hx.
  destruct (is_zero x) eqn:Hz.
  - intros [= <-]. apply dfix_nonneg. right. reflexivity.
  - destruct Hx as [Hs|H0]; [|unfold is_zero in Hz; rewrite H0 in Hz; discriminate].
    rewrite Hs. simpl.
    match goal with
    | |- (let '(c, e) := ?pair in _) = _ → _ => destruct pair as [c e]
    end.
    intros [= <-]. apply dfix_nonneg. left. reflexivity.
Qed.

(** As long as the two subtractions of [make_payment] lose nothing to
    rounding, a payment keeps the remaining amount between zero and its
    previous value, and the loan is inactive afterwards exactly when
    nothing remains. *)
Lemma make_payment_exact self amt p self' :
  make_payment amt self = (Returned p, self') →
  0 <= dval (remaining_amount self) →
  0 <= dval (interest_rate self) →
  inexact (add_exact (payment_amount p) (copy_negate (interest p))) = false →
  inexact (add_exact (remaining_amount self) (copy_negate (principal p))) = false →
  (0 <= dval (remaining_amount self') ∧
   dval (remaining_amount self') <= dval (remaining_amount self)) ∧
  (loan_is_active self' = false ↔ dval (remaining_amount self') == 0).
Proof.
  rewrite make_payment_unfold.
  destruct (loan_is_active self) eqn:Hact; [|discriminate]. simpl.
  destruct (dec_leb amt (D 0 0)) eqn:Hpos; [discriminate|].
  destruct (dec_div (interest_rate self) (D 12 0)) as [monthly_rate|e] eqn:Hdiv;
    [|discriminate].
  set (capped := if dec_gtb amt (remaining_amount self) then remaining_amount self else amt).
  set (due := dec_mul (remaining_amount self) monthly_rate).
  unfold LoanPayment_init.
  destruct (dec_ltb _ _); [|discriminate].
  intros [= <- <-]. simpl. intros Hrem Hrate Hsub1 Hsub2.
  assert (Hcap : dval capped <= dval (remaining_amount self)).
  { subst capped. destruct (dec_gtb amt (remaining_amount self)) eqn:Hgt.
    - apply Qle_refl.
    - unfold dec_gtb in Hgt. apply dec_ltb_false in Hgt. assumption. }
  assert (Hdue : 0 <= dval due).
  { apply dval_nonneg, dec_mul_nonneg; [apply nonneg_dval; assumption|].
    eapply dec_div_nonneg; [|exact Hdiv]. apply nonneg_dval; assumption. }
  assert (Hp : 0 <= dval (if dec_leb capped due then D 0 0 else dec_sub capped due) ∧
               dval (if dec_leb capped due then D 0 0 else dec_sub capped due)
               <= dval (remaining_amount self)).
  { destruct (dec_leb capped due) eqn:Hle.
    - rewrite dval_zero. split; [apply Qle_refl|assumption].
    - apply dec_leb_false in Hle.
      unfold dec_sub. rewrite (dval_dfix _ Hsub1), dval_add_exact, dval_copy_negate.
      split; lra. }
  set (pr := if dec_leb capped due then D 0 0 else dec_sub capped due) in *.
  assert (Hnew : dval (dec_sub (remaining_amount self) pr)
                 == dval (remaining_amount self) - dval pr).
  { unfold dec_sub. rewrite (dval_dfix _ Hsub2), dval_add_exact, dval_copy_negate. ring. }
  split; [rewrite Hnew; split; lra|].
  destruct (dec_leb (dec_sub (remaining_amount self) pr) (D 0 0)) eqn:Hz.
  - apply dec_leb_spec in Hz. rewrite dval_zero in Hz. split; [intros _|reflexivity].
    apply Qle_antisym; [assumption|]. rewrite Hnew. lra.
  - apply dec_leb_false in Hz. rewrite dval_zero in Hz.
    split; [discriminate|]. intros H0. rewrite H0 in Hz. exfalso. lra.
Qed.

(** As long as the two subtractions lose nothing to rounding, a payment
    above the remaining amount of a loan that bears interest leaves the
    interest of the month outstanding and the loan active. *)
Lemma overpayment_exact self amt p self' :
  make_payment amt self = (Returned p, self') →
  dec_gtb amt (remaining_amount self) = true →
  0 < dval (remaining_amount self) →
  0 < dval (interest p) →
  inexact (add_exact (payment_amount p) (copy_negate (interest p))) = false →
  inexact (add_exact (remaining_amount self) (copy_negate (principal p))) = false →
  0 < dval (remaining_amount self') ∧ loan_is_active self' = true.
Proof.
  rewrite make_payment_unfold.
  destruct (loan_is_active self) eqn:Hact; [|discriminate]. simpl.
  destruct (dec_leb amt (D 0 0)) eqn:Hpos; [discriminate|].
  destruct (dec_div (interest_rate self) (D 12 0)) as [monthly_rate|e] eqn:Hdiv;
    [|discriminate].
  intros Hret Hover. rewrite Hover in Hret. revert Hret.
  set (due := dec_mul (remaining_amount self) monthly_rate).
  unfold LoanPayment_init.
  destruct (dec_ltb _ _); [|discriminate].
  intros [= <- <-]. simpl. intros Hrem Hint Hsub1 Hsub2.
  set (pr := if dec_leb (remaining_amount self) due then D 0 0
             else dec_sub (remaining_amount self) due) in *.
  assert (Hnew : dval (dec_sub (remaining_amount self) pr)
                 == dval (remaining_amount self) - dval pr).
  { unfold dec_sub. rewrite (dval_dfix _ Hsub2), dval_add_exact, dval_copy_negate. ring. }
  assert (Hleft : 0 < dval (dec_sub (remaining_amount self) pr)).
  { rewrite Hnew. subst pr. destruct (dec_leb (remaining_amount self) due) eqn:Hle.
    - rewrite dval_zero. lra.
    - unfold dec_sub. rewrite (dval_dfix _ Hsub1), dval_add_exact, dval_copy_negate. lra. }
  split; [assumption|].
  destruct (dec_leb (dec_sub (remaining_amount self) pr) (D 0 0)) eqn:Hz; [|reflexivity].
  apply dec_leb_spec in Hz. rewrite dval_zero in Hz. exfalso. lra.
Qed.

End LoanOrder.

(** * The rest of the engine *)

(** ** Transaction histories *)

(** X1.  With a positive limit, [get_transaction_history] returns the last
    [limit] Transactions of the account in the order of the ledger, and all
    of them when the ledger has no more than [limit]. *)
Theorem history_last_transactions (self : Account) (limit : Z) :
  0 < limit →
  get_transaction_history self (Some limit) =
    drop (length (transactions self) - Z.to_nat limit) (transactions self) ∧
  length (get_transaction_history self (Some limit)) =
    Nat.min (Z.to_nat limit) (length (transactions self)).
Proof.
  intros Hpos. unfold get_transaction_history, slice_from.
  destruct (Z.ltb_spec (- limit) 0) as [_|?]; [|lia].
  assert (Hs : Z.to_nat (Z.max (Z.of_nat (length (transactions self)) + - limit) 0)
               = (length (transactions self) - Z.to_nat limit)%nat) by lia.
  rewrite Hs. split; [reflexivity|].
  rewrite length_drop. lia.
Qed.

Lemma history_last_transactions_witness :
  let a := mkAccount "ACC-2001" "checking" (D 6000 (-2))
             [Transaction_init (D 10000 (-2)) "deposit";
              Transaction_init (mkDecimal true 2000 (-2)) "withdrawal";
              Transaction_init (mkDecimal true 2000 (-2)) "withdrawal"] true in
  0 < 2 ∧
  get_transaction_history a (Some 2) =
    [Transaction_init (mkDecimal true 2000 (-2)) "withdrawal";
     Transaction_init (mkDecimal true 2000 (-2)) "withdrawal"] ∧
  length (get_transaction_history a (Some 2)) = 2%nat.
Proof.
  split; [lia|].
  exact (history_last_transactions
           (mkAccount "ACC-2001" "checking" (D 6000 (-2))
              [Transaction_init (D 10000 (-2)) "deposit";
               Transaction_init (mkDecimal true 2000 (-2)) "withdrawal";
               Transaction_init (mkDecimal true 2000 (-2)) "withdrawal"] true)
           2 ltac:(lia)).
Defined.

(** X2.  A limit of 0 does not give an empty history: [transactions[-0:]]
    is the whole ledger.  A negative limit [-n] drops the [n] oldest
    Transactions and returns the rest. *)
Theorem history_zero_or_negative_limit (self : Account) (n : nat) :
  get_transaction_history self (Some (- Z.of_nat n)) = drop n (transactions self).
Proof.
  unfold get_transaction_history, slice_from.
  destruct (Z.ltb_spec (- - Z.of_nat n) 0) as [?|_]; [lia|].
  destruct (Nat.le_gt_cases (length (transactions self)) n) as [Hge|Hlt].
  - rewrite !drop_ge by lia. reflexivity.
  - f_equal. lia.
Qed.

(** ** Amortization schedules and remaining payments *)

Lemma zero_coefficient_leb (b : Decimal) :
  d_int b = 0%N → dec_leb b (D 0 0) = true ∧ dec_eqb b (D 0 0) = true.
Proof.
  intros Hz. unfold dec_leb, dec_eqb, dec_compare, signed. rewrite Hz. simpl.
  destruct (d_sign b); simpl; auto.
Qed.

Lemma dec_sub_self (b : Decimal) : d_int (dec_sub b b) = 0%N.
Proof.
  unfold dec_sub, add_exact.
  assert (Hz : signed b * 10 ^ (d_exp b - Z.min (d_exp b) (d_exp (copy_negate b))) +
               signed (copy_negate b) *
                 10 ^ (d_exp (copy_negate b) - Z.min (d_exp b) (d_exp (copy_negate b))) = 0).
  { unfold copy_negate, signed; simpl. destruct (d_sign b); simpl; lia. }
  rewrite Hz. reflexivity.
Qed.

Lemma positive_after_leb_false (b : Decimal) :
  dec_leb b (D 0 0) = false →
  dec_gtb (if dec_gtb (D 0 0) b then D 0 0 else b) (D 0 0) = true.
Proof.
  unfold dec_gtb, dec_ltb, dec_leb.
  destruct (dec_compare b (D 0 0)) eqn:Hc; try discriminate. intros _.
  rewrite (dec_compare_antisym b (D 0 0)), Hc. reflexivity.
Qed.

(** The rows a run of the loop adds: their months are the first of the
    months left, every row but the last has a positive balance entry, and a
    row of the last month has a balance entry of zero. *)
Lemma schedule_loop_shape self rate months : ∀ balance payment schedule,
  ∃ rows,
    schedule_loop self rate months balance payment schedule = schedule ++ rows ∧
    map row_month rows = take (length rows) months ∧
    (length rows ≤ length months)%nat ∧
    (months ≠ [] → rows ≠ []) ∧
    (∀ i r, rows !! i = Some r → (S i < length rows)%nat →
            dec_gtb (row_balance r) (D 0 0) = true) ∧
    (∀ i r, rows !! i = Some r → row_month r = term_months self →
            dec_eqb (row_balance r) (D 0 0) = true).
Proof.
  induction months as [|month months IH]; intros balance payment schedule.
  - exists []. simpl. rewrite app_nil_r. repeat split; try done; lia.
  - cbn [schedule_loop].
    set (interest := dec_mul balance rate).
    destruct (Z.eqb_spec month (term_months self)) as [Hlast|Hnot].
    + (* the last month: the balance is cleared *)
      set (row := mkScheduleRow month (dec_add balance interest) balance interest
                    (if dec_gtb (D 0 0) (dec_sub balance balance) then D 0 0
                     else dec_sub balance balance)).
      pose proof (dec_sub_self balance) as Hz.
      destruct (zero_coefficient_leb _ Hz) as [Hle Heq]. rewrite Hle.
      exists [row]. repeat split; try done.
      * simpl. lia.
      * intros [|i] r Hr Hi; simpl in *; [lia|done].
      * intros [|i] r Hr _; [|done]. injection Hr as <-. simpl.
        destruct (dec_gtb (D 0 0) (dec_sub balance balance)); [reflexivity|assumption].
    + set (principal := dec_sub payment interest).
      set (balance' := dec_sub balance principal).
      set (row := mkScheduleRow month payment principal interest
                    (if dec_gtb (D 0 0) balance' then D 0 0 else balance')).
      destruct (dec_leb balance' (D 0 0)) eqn:Hle.
      * exists [row]. repeat split; try done.
        -- simpl. lia.
        -- intros [|i] r Hr Hi; simpl in *; [lia|done].
        -- intros [|i] r Hr Hm; [|done]. injection Hr as <-. simpl in Hm. contradiction.
      * destruct (IH balance' payment (schedule ++ [row]))
          as (rows & Heq & Hmonths & Hlen & _ & Hpos & Hzero).
        exists (row :: rows). rewrite Heq, <- app_assoc. repeat split; try done.
        -- simpl. rewrite Hmonths. reflexivity.
        -- simpl. lia.
        -- intros [|i] r Hr Hi; simpl in *.
           ++ injection Hr as <-. simpl. apply positive_after_leb_false. assumption.
           ++ apply (Hpos i r Hr). lia.
        -- intros [|i] r Hr Hm; simpl in *.
           ++ injection Hr as <-. simpl in Hm. contradiction.
           ++ apply (Hzero i r Hr Hm).
Qed.

Lemma schedule_shape self rows :
  generate_amortization_schedule self = Returned rows →
  map row_month rows = take (length rows) (month_range (term_months self)) ∧
  (length rows ≤ length (month_range (term_months self)))%nat ∧
  (month_range (term_months self) ≠ [] → rows ≠ []) ∧
  (∀ i r, rows !! i = Some r → (S i < length rows)%nat →
          dec_gtb (row_balance r) (D 0 0) = true) ∧
  (∀ i r, rows !! i = Some r → row_month r = term_months self →
          dec_eqb (row_balance r) (D 0 0) = true).
Proof.
  unfold generate_amortization_schedule, mbind, outcome_bind, mret, outcome_ret.
  destruct (calculate_monthly_payment self) as [payment|]; [|discriminate].
  destruct (dec_div _ _) as [rate|]; [|discriminate].
  intros [= <-].
  destruct (schedule_loop_shape self rate (month_range (term_months self))
              (original_amount self) payment []) as (rows & -> & H).
  exact H.
Qed.

Lemma month_range_length n : length (month_range n) = Z.to_nat n.
Proof. unfold month_range. rewrite length_map, length_seq. reflexivity. Qed.

(** X3.  The rows of a schedule are numbered 1, 2, 3, ... without a gap;
    there are at most [term_months] of them, and at least one when the
    term is positive. *)
Theorem schedule_months_run_from_one (self : Loan) (rows : list ScheduleRow) :
  generate_amortization_schedule self = Returned rows →
  map row_month rows = map Z.of_nat (seq 1 (length rows)) ∧
  (length rows ≤ Z.to_nat (term_months self))%nat ∧
  (0 < term_months self → rows ≠ []).
Proof.
  intros (Hmonths & Hlen & Hne & _)%schedule_shape.
  rewrite month_range_length in Hlen. split; [|split].
  - rewrite Hmonths. unfold month_range.
    rewrite <- fmap_take, take_seq. f_equal. f_equal. lia.
  - assumption.
  - intros Hpos. apply Hne. intros Hnil.
    apply (f_equal length) in Hnil. rewrite month_range_length in Hnil. simpl in Hnil. lia.
Qed.

Lemma schedule_months_run_from_one_witness :
  let rows := schedule_loop small_loan (D 6667 (-6)) (month_range 60)
                (D 100000 (-2)) (D 1948 (-2)) [] in
  generate_amortization_schedule small_loan = Returned rows ∧
  map row_month rows = map Z.of_nat (seq 1 (length rows)) ∧
  (length rows ≤ Z.to_nat (term_months small_loan))%nat ∧
  (0 < term_months small_loan → rows ≠ []).
Proof.
  assert (H : generate_amortization_schedule small_loan =
              Returned (schedule_loop small_loan (D 6667 (-6)) (month_range 60)
                          (D 100000 (-2)) (D 1948 (-2)) []))
    by (vm_compute; reflexivity).
  split; [exact H|].
  exact (schedule_months_run_from_one small_loan _ H).
Defined.

(** X4.  In a schedule every row but the last has a positive balance
    entry: the rows stop at the first month that clears the balance.  A
    row of the month [term_months] has a balance entry equal to zero,
    whatever the rounding did before. *)
Theorem schedule_stops_when_the_balance_is_cleared
    (self : Loan) (rows : list ScheduleRow) :
  generate_amortization_schedule self = Returned rows →
  (∀ i r, rows !! i = Some r → (S i < length rows)%nat →
          dec_gtb (row_balance r) (D 0 0) = true) ∧
  (∀ r, r ∈ rows → row_month r = term_months self →
        dec_eqb (row_balance r) (D 0 0) = true).
Proof.
  intros (_ & _ & _ & Hpos & Hzero)%schedule_shape. split; [exact Hpos|].
  intros r [i Hi]%list_elem_of_lookup Hm. exact (Hzero i r Hi Hm).
Qed.

Lemma schedule_stops_when_the_balance_is_cleared_witness :
  let rows := schedule_loop small_loan (D 6667 (-6)) (month_range 60)
                (D 100000 (-2)) (D 1948 (-2)) [] in
  generate_amortization_schedule small_loan = Returned rows ∧
  (∀ i r, rows !! i = Some r → (S i < length rows)%nat →
          dec_gtb (row_balance r) (D 0 0) = true) ∧
  (∀ r, r ∈ rows → row_month r = term_months small_loan →
        dec_eqb (row_balance r) (D 0 0) = true).
Proof.
  assert (H : generate_amortization_schedule small_loan =
              Returned (schedule_loop small_loan (D 6667 (-6)) (month_range 60)
                          (D 100000 (-2)) (D 1948 (-2)) []))
    by (vm_compute; reflexivity).
  split; [exact H|].
  exact (schedule_stops_when_the_balance_is_cleared small_loan _ H).
Defined.

Lemma drop_rows_by_month (k : nat) : ∀ (rows : list ScheduleRow) (j : nat),
  map row_month rows = map Z.of_nat (seq (S j) (length rows)) →
  drop (k - j) rows = filter (λ r, Z.of_nat k < row_month r) rows.
Proof.
  induction rows as [|r rows IH]; intros j Hm.
  - rewrite drop_nil. reflexivity.
  - simpl in Hm. injection Hm as Hr Hm. specialize (IH (S j) Hm).
    destruct (decide (k ≤ j)%nat) as [Hle|Hgt].
    + replace (k - j)%nat with 0%nat by lia.
      replace (k - S j)%nat with 0%nat in IH by lia.
      rewrite filter_cons_True by lia. rewrite <- IH. reflexivity.
    + replace (k - j)%nat with (S (k - S j)) by lia.
      rewrite filter_cons_False by lia. exact IH.
Qed.

(** X5.  The remaining payments of a loan are the rows of its schedule
    for the months after the number of payments made, whatever the
    amounts of those payments were; there are none once as many payments
    were made as the schedule has rows. *)
Theorem remaining_payments_are_the_later_months
    (self : Loan) (rows : list ScheduleRow) :
  generate_amortization_schedule self = Returned rows →
  get_remaining_payments self =
    Returned (filter (λ r, Z.of_nat (length (payments self)) < row_month r) rows).
Proof.
  intros H. pose proof (schedule_shape self rows H) as (Hmonths & Hlen & _).
  unfold get_remaining_payments. rewrite H. unfold mbind, outcome_bind, mret, outcome_ret.
  assert (Hm : map row_month rows = map Z.of_nat (seq 1 (length rows))).
  { rewrite Hmonths. unfold month_range. rewrite <- fmap_take, take_seq.
    rewrite month_range_length in Hlen. f_equal. f_equal. lia. }
  pose proof (drop_rows_by_month (length (payments self)) rows 0 Hm) as Hd.
  rewrite Nat.sub_0_r in Hd. rewrite <- Hd.
  destruct (Nat.leb_spec (length rows) (length (payments self))) as [Hle|Hgt].
  - rewrite drop_ge by lia. reflexivity.
  - reflexivity.
Qed.

Lemma remaining_payments_are_the_later_months_witness :
  let paid := mkLoan (D 100000 (-2)) (D 9872 (-1)) LOAN_INTEREST_RATE 60
                [mkLoanPayment (D 1948 (-2)) (D 1281 (-2)) (D 6667 (-3))] true in
  let rows := schedule_loop paid (D 6667 (-6)) (month_range 60)
                (D 100000 (-2)) (D 1948 (-2)) [] in
  generate_amortization_schedule paid = Returned rows ∧
  get_remaining_payments paid =
    Returned (filter (λ r, Z.of_nat (length (payments paid)) < row_month r) rows).
Proof.
  assert (H : generate_amortization_schedule
                (mkLoan (D 100000 (-2)) (D 9872 (-1)) LOAN_INTEREST_RATE 60
                   [mkLoanPayment (D 1948 (-2)) (D 1281 (-2)) (D 6667 (-3))] true) =
              Returned (schedule_loop
                          (mkLoan (D 100000 (-2)) (D 9872 (-1)) LOAN_INTEREST_RATE 60
                             [mkLoanPayment (D 1948 (-2)) (D 1281 (-2)) (D 6667 (-3))] true)
                          (D 6667 (-6)) (month_range 60)
                          (D 100000 (-2)) (D 1948 (-2)) []))
    by (vm_compute; reflexivity).
  split; [exact H|].
  exact (remaining_payments_are_the_later_months _ _ H).
Defined.

(** ** Payments on a loan *)

Lemma make_payment_raised (amt : Decimal) (self self' : Loan) (e : exn) :
  make_payment amt self = (Raised e, self') → self' = self.
Proof.
  rewrite make_payment_unfold.
  destruct (negb (loan_is_active self)); [congruence|].
  destruct (dec_leb amt (D 0 0)); [congruence|].
  destruct (dec_div (interest_rate self) (D 12 0)); [|congruence].
  cbv zeta. destruct (LoanPayment_init _ _ _); [discriminate|congruence].
Qed.

(** X6.  A payment that [make_payment] refuses, for whatever reason (the
    loan is closed, the amount is not positive, the parts of the payment do
    not add up, the rate cannot be divided), leaves the loan as it was: no
    payment is recorded and no amount is touched. *)
Theorem refused_payment_leaves_the_loan (amt : Decimal) (self self' : Loan) (e : exn) :
  make_payment amt self = (Raised e, self') → self' = self.
Proof. apply make_payment_raised. Qed.

Lemma refused_payment_leaves_the_loan_witness :
  make_payment (D 20276 (-2)) spec_loan = (Raised PaymentMismatch, spec_loan) ∧
  spec_loan = spec_loan.
Proof.
  assert (H : make_payment (D 20276 (-2)) spec_loan = (Raised PaymentMismatch, spec_loan))
    by (vm_compute; reflexivity).
  split; [exact H|].
  exact (refused_payment_leaves_the_loan _ _ _ _ H).
Defined.

Lemma dec_leb_refl (x : Decimal) : dec_leb x x = true.
Proof. unfold dec_leb, dec_compare. rewrite Z.compare_refl. reflexivity. Qed.

Lemma dec_ltb_leb (x y : Decimal) : dec_ltb x y = true → dec_leb x y = true.
Proof. unfold dec_ltb, dec_leb. destruct (dec_compare x y); congruence. Qed.

Lemma dec_leb_false_flip (x y : Decimal) : dec_leb x y = false → dec_leb y x = true.
Proof.
  unfold dec_leb. rewrite (dec_compare_antisym x y).
  destruct (dec_compare x y); simpl; congruence.
Qed.

Section Differences.
Local Open Scope Q_scope.

(** A difference computed in the context is not negative when the number
    taken away is not the larger one, whatever the rounding. *)
Lemma dec_sub_nonneg (x y : Decimal) : dval y <= dval x → nonneg (dec_sub x y).
Proof.
  intros Hle. unfold dec_sub. apply dfix_nonneg, nonneg_dval.
  rewrite dval_add_exact, dval_copy_negate. lra.
Qed.

Lemma dec_add_nonneg (x y : Decimal) : 0 <= dval x → 0 <= dval y → nonneg (dec_add x y).
Proof.
  intros Hx Hy. unfold dec_add. apply dfix_nonneg, nonneg_dval.
  rewrite dval_add_exact. lra.
Qed.

Lemma nonneg_leb (x : Decimal) : nonneg x → dec_leb (D 0 0) x = true.
Proof.
  intros Hx. apply dec_leb_spec. rewrite dval_zero. apply dval_nonneg. assumption.
Qed.

Lemma leb_nonneg (x : Decimal) e : dec_leb (D 0 e) x = true → nonneg x.
Proof.
  intros Hx. apply dec_leb_spec in Hx. rewrite dval_zero in Hx.
  apply nonneg_dval. assumption.
Qed.

End Differences.

(** X7.  A payment that [make_payment] accepts is recorded once, at the
    end of the payments of the loan.  Its amount is the amount offered,
    capped at the remaining amount; its interest part is not above that
    amount and its principal part is not negative; the remaining amount
    goes down by the principal part (in the decimal context), the terms of
    the loan stay, and the loan is active afterwards exactly when the new
    remaining amount is above zero. *)
Theorem accepted_payment_is_capped_split_and_recorded
    (amt : Decimal) (self self' : Loan) (p : LoanPayment) :
  make_payment amt self = (Returned p, self') →
  payment_amount p =
    (if dec_gtb amt (remaining_amount self) then remaining_amount self else amt) ∧
  dec_leb (interest p) (payment_amount p) = true ∧
  dec_leb (D 0 0) (principal p) = true ∧
  payments self' = payments self ++ [p] ∧
  remaining_amount self' = dec_sub (remaining_amount self) (principal p) ∧
  (original_amount self', interest_rate self', term_months self') =
    (original_amount self, interest_rate self, term_months self) ∧
  loan_is_active self' = negb (dec_leb (remaining_amount self') (D 0 0)).
Proof.
  rewrite make_payment_unfold.
  destruct (loan_is_active self) eqn:Hact; [|discriminate]. simpl.
  destruct (dec_leb amt (D 0 0)); [discriminate|].
  destruct (dec_div (interest_rate self) (D 12 0)) as [monthly_rate|]; [|discriminate].
  set (capped := if dec_gtb amt (remaining_amount self) then remaining_amount self else amt).
  set (due := dec_mul (remaining_amount self) monthly_rate).
  unfold LoanPayment_init. destruct (dec_ltb _ _); [|discriminate].
  intros [= <- <-]. simpl.
  split; [reflexivity|]. split; [|split; [|split; [reflexivity|split; [reflexivity|split]]]].
  - destruct (dec_leb capped due) eqn:Hle; [apply dec_leb_refl|].
    apply dec_leb_false_flip. assumption.
  - destruct (dec_leb capped due) eqn:Hle; [reflexivity|].
    apply nonneg_leb, dec_sub_nonneg.
    apply dec_leb_false in Hle. apply Qlt_le_weak. assumption.
  - reflexivity.
  - destruct (dec_leb (dec_sub _ _) (D 0 0)); reflexivity.
Qed.

Lemma accepted_payment_is_capped_split_and_recorded_witness :
  let p := mkLoanPayment (D 1948 (-2)) (D 1281 (-2)) (D 6667 (-3)) in
  let self' := mkLoan (D 100000 (-2)) (D 9872 (-1)) LOAN_INTEREST_RATE 60 [p] true in
  make_payment (D 1948 (-2)) small_loan = (Returned p, self') ∧
  payment_amount p =
    (if dec_gtb (D 1948 (-2)) (remaining_amount small_loan)
     then remaining_amount small_loan else D 1948 (-2)) ∧
  dec_leb (interest p) (payment_amount p) = true ∧
  dec_leb (D 0 0) (principal p) = true ∧
  payments self' = payments small_loan ++ [p] ∧
  remaining_amount self' = dec_sub (remaining_amount small_loan) (principal p) ∧
  (original_amount self', interest_rate self', term_months self') =
    (original_amount small_loan, interest_rate small_loan, term_months small_loan) ∧
  loan_is_active self' = negb (dec_leb (remaining_amount self') (D 0 0)).
Proof.
  assert (H : make_payment (D 1948 (-2)) small_loan =
              (Returned (mkLoanPayment (D 1948 (-2)) (D 1281 (-2)) (D 6667 (-3))),
               mkLoan (D 100000 (-2)) (D 9872 (-1)) LOAN_INTEREST_RATE 60
                 [mkLoanPayment (D 1948 (-2)) (D 1281 (-2)) (D 6667 (-3))] true))
    by (vm_compute; reflexivity).
  split; [exact H|].
  exact (accepted_payment_is_capped_split_and_recorded _ _ _ _ H).
Defined.

(** What [quantize] returns has the exponent asked for and a coefficient
    of no more digits than the precision. *)
Lemma quantize_returns (d q r : Decimal) :
  quantize d q = Returned r → d_exp r = d_exp q ∧ (Z.of_N (d_int r) < 10 ^ getcontext_prec).
Proof.
  unfold quantize. destruct (is_zero d) eqn:Hz.
  - intros [= <-]. unfold dfix, is_zero. simpl. split; [reflexivity|].
    unfold getcontext_prec. lia.
  - destruct (getcontext_prec <? _); [discriminate|].
    destruct (Z.ltb_spec getcontext_prec (ndigits (d_int (rescale d (d_exp q))))) as [|Hle];
      [discriminate|].
    intros [= <-].
    assert (Hexp : d_exp (rescale d (d_exp q)) = d_exp q).
    { unfold rescale. rewrite Hz. destruct (d_exp q <=? d_exp d); reflexivity. }
    set (ans := rescale d (d_exp q)) in *.
    assert (Hfix : dfix ans = ans).
    { unfold dfix. destruct (is_zero ans); [reflexivity|].
      destruct (Z.ltb_spec getcontext_prec (ndigits (d_int ans))); [lia|reflexivity]. }
    rewrite Hfix. split; [assumption|].
    destruct (N.eq_dec (d_int ans) 0%N) as [Hz0|Hne]; [rewrite Hz0; unfold getcontext_prec; simpl; lia|].
    pose proof (ndigits_spec (d_int ans) ltac:(lia)) as [_ Hhi].
    eapply Z.lt_le_trans; [exact Hhi|].
    apply Z.pow_le_mono_r; lia.
Qed.

(** X8.  No loan has a monthly payment of 100.00 or more: what
    [calculate_monthly_payment] returns is a whole number of cents below
    10000, because the result is quantized to cents in a context of four
    significant digits.  For a larger payment the method raises. *)
Theorem monthly_payment_is_below_one_hundred (self : Loan) (payment : Decimal) :
  calculate_monthly_payment self = Returned payment →
  d_exp payment = -2 ∧ (d_int payment < 10000)%N.
Proof.
  unfold calculate_monthly_payment, mbind, outcome_bind.
  destruct (dec_div _ _); [|discriminate].
  destruct (dec_pow _ _); [|discriminate].
  destruct (dec_div _ _); [|discriminate].
  intros [Hexp Hint]%quantize_returns. split; [exact Hexp|].
  unfold getcontext_prec in Hint. lia.
Qed.

Lemma monthly_payment_is_below_one_hundred_witness :
  calculate_monthly_payment small_loan = Returned (D 1948 (-2)) ∧
  d_exp (D 1948 (-2)) = -2 ∧ (d_int (D 1948 (-2)) < 10000)%N.
Proof.
  assert (H : calculate_monthly_payment small_loan = Returned (D 1948 (-2)))
    by (vm_compute; reflexivity).
  split; [exact H|].
  exact (monthly_payment_is_below_one_hundred _ _ H).
Defined.

(** ** Deposits, withdrawals and transfers *)

Lemma deposit_raised self amt w e w' : deposit self amt w = (Raised e, w') → w' = w.
Proof.
  rewrite deposit_unfold.
  destruct (dec_leb _ _); [congruence|]. destruct (dec_ltb _ _); [congruence|].
  destruct (heap w !! self); [discriminate|congruence].
Qed.

Lemma withdraw_raised self amt w e w' : withdraw self amt w = (Raised e, w') → w' = w.
Proof.
  rewrite withdraw_unfold.
  destruct (dec_leb _ _); [congruence|].
  destruct (heap w !! self); [|congruence].
  destruct (negb _); [congruence|]. destruct (dec_ltb _ _); [congruence|].
  destruct (dec_gtb _ _); [congruence|]. destruct (dec_gtb _ _); [congruence|discriminate].
Qed.



Section NoOverdraft.
Local Open Scope Q_scope.

Lemma deposit_keeps_nonneg self amt w :
  Forall (λ a, nonneg (balance a)) (heap w) →
  Forall (λ a, nonneg (balance a)) (heap (deposit self amt w).2).
Proof.
  intros Hall. rewrite deposit_unfold.
  destruct (dec_leb amt (D 0 (-2))) eqn:Hpos; [assumption|].
  destruct (dec_ltb _ _); [assumption|].
  destruct (heap w !! self) as [a|] eqn:Ha; [|assumption]. simpl.
  apply Forall_insert; [assumption|]. simpl.
  apply dec_add_nonneg.
  - apply dval_nonneg. exact (Forall_lookup_1 _ _ _ _ Hall Ha).
  - apply dec_leb_false in Hpos. rewrite dval_zero in Hpos. lra.
Qed.

Lemma withdraw_keeps_nonneg self amt w :
  Forall (λ a, nonneg (balance a)) (heap w) →
  Forall (λ a, nonneg (balance a)) (heap (withdraw self amt w).2).
Proof.
  intros Hall. rewrite withdraw_unfold.
  destruct (dec_leb _ _); [assumption|].
  destruct (heap w !! self) as [a|] eqn:Ha; [|assumption].
  destruct (negb _); [assumption|]. destruct (dec_ltb _ _); [assumption|].
  destruct (dec_gtb _ _); [assumption|].
  destruct (dec_gtb amt (balance a)) eqn:Hgt; [assumption|]. simpl.
  apply Forall_insert; [assumption|]. simpl.
  apply dec_sub_nonneg. unfold dec_gtb in Hgt. apply dec_ltb_false in Hgt. assumption.
Qed.

Lemma transfer_keeps_nonneg self amt recipient w :
  Forall (λ a, nonneg (balance a)) (heap w) →
  Forall (λ a, nonneg (balance a)) (heap (transfer self amt recipient w).2).
Proof.
  intros Hall. rewrite transfer_unfold.
  destruct (dec_leb _ _); [assumption|]. destruct (bool_decide _); [assumption|].
  destruct (heap w !! recipient) as [r|]; [|assumption].
  destruct (negb _); [assumption|].
  pose proof (withdraw_keeps_nonneg self amt w Hall) as Hwd.
  destruct (withdraw self amt w) as [[r1|e1] w1]; simpl in Hwd; [|exact Hwd].
  pose proof (deposit_keeps_nonneg recipient amt w1 Hwd) as Hdp.
  destruct (deposit recipient amt w1) as [[r2|e2] w2]; simpl in Hdp; [|exact Hdp].
  destruct (heap w2 !! self) as [a|] eqn:Ha; simpl; [|exact Hdp].
  apply Forall_insert; [assumption|]. simpl.
  exact (Forall_lookup_1 _ _ _ _ Hdp Ha).
Qed.

Lemma run_keeps_nonneg ops : ∀ w,
  Forall (λ a, nonneg (balance a)) (heap w) →
  Forall (λ a, nonneg (balance a)) (heap (run w ops)).
Proof.
  induction ops as [|o ops IH]; intros w Hall; simpl; [assumption|].
  apply IH. destruct o; simpl.
  - apply deposit_keeps_nonneg; assumption.
  - apply withdraw_keeps_nonneg; assumption.
  - apply transfer_keeps_nonneg; assumption.
Qed.

End NoOverdraft.

(** X10.  No overdraft: if no account has a negative balance, then after
    any sequence of deposits, withdrawals and transfers, each returning or
    raising, no account has one.  The rounding of the context does not
    break this: a difference that is not negative is not rounded below
    zero. *)
Theorem balances_never_go_negative (w : World) (ops : list operation) :
  Forall (λ a, dec_leb (D 0 0) (balance a) = true) (heap w) →
  Forall (λ a, dec_leb (D 0 0) (balance a) = true) (heap (run w ops)).
Proof.
  intros Hall.
  eapply Forall_impl; [apply run_keeps_nonneg|].
  - eapply Forall_impl; [exact Hall|]. intros a Ha. exact (leb_nonneg _ _ Ha).
  - intros a Ha. exact (nonneg_leb _ Ha).
Qed.

Lemma balances_never_go_negative_witness :
  let ops := [Deposit 0 (D 100000 (-2)); Withdraw 0 (D 123456 (-2));
              Transfer 0 (D 99999 (-2)) 1; Withdraw 1 (D 2000 (-2))] in
  Forall (λ a, dec_leb (D 0 0) (balance a) = true) (heap two_accounts) ∧
  Forall (λ a, dec_leb (D 0 0) (balance a) = true) (heap (run two_accounts ops)).
Proof.
  assert (H0 : Forall (λ a, dec_leb (D 0 0) (balance a) = true) (heap two_accounts)).
  { repeat constructor. }
  split; [exact H0|].
  exact (balances_never_go_negative two_accounts _ H0).
Defined.

Lemma withdraw_returned self amt w r w' :
  withdraw self amt w = (Returned r, w') →
  ∃ a, heap w !! self = Some a ∧
       heap w' = <[self := transactions_append (Transaction_init (dec_neg amt) "withdrawal")
                             (set_balance (dec_sub (balance a) amt) a)]> (heap w) ∧
       accounts w' = accounts w.
Proof.
  rewrite withdraw_unfold.
  destruct (dec_leb _ _); [discriminate|].
  destruct (heap w !! self) as [a|]; [|discriminate].
  destruct (negb _); [discriminate|]. destruct (dec_ltb _ _); [discriminate|].
  destruct (dec_gtb _ _); [discriminate|]. destruct (dec_gtb _ _); [discriminate|].
  intros [= <- <-]. exists a. simpl. auto.
Qed.

Lemma deposit_returned self amt w r w' :
  deposit self amt w = (Returned r, w') →
  ∃ a, heap w !! self = Some a ∧
       heap w' = <[self := transactions_append (Transaction_init amt "deposit")
                             (set_balance (dec_add (balance a) amt) a)]> (heap w) ∧
       accounts w' = accounts w.
Proof.
  rewrite deposit_unfold.
  destruct (dec_leb _ _); [discriminate|]. destruct (dec_ltb _ _); [discriminate|].
  destruct (heap w !! self) as [a|]; [|discriminate].
  intros [= <- <-]. exists a. simpl. auto.
Qed.

(** X11.  A transfer of at least the minimum deposit is all or nothing:
    when it is refused, for whatever reason, no account, ledger or flag
    has changed.  (Below the minimum deposit a refused transfer can leave
    the sender debited.) *)
Theorem refused_transfer_of_a_deposit_amount_changes_nothing
    (self recipient : nat) (amt : Decimal) (w w' : World) (e : exn) :
  dec_ltb amt MIN_DEPOSIT = false →
  transfer self amt recipient w = (Raised e, w') →
  w' = w.
Proof.
  intros Hmin. rewrite transfer_unfold.
  destruct (dec_leb amt (D 0 (-2))) eqn:Hpos; [congruence|].
  destruct (bool_decide_reflect (self = recipient)) as [|Hne]; [congruence|].
  destruct (heap w !! recipient) as [r|] eqn:Hr; [|congruence].
  destruct (negb _); [congruence|].
  destruct (withdraw self amt w) as [[r1|e1] w1] eqn:Hwd.
  2:{ intros [= <- <-]. exact (withdraw_raised _ _ _ _ _ Hwd). }
  destruct (withdraw_returned _ _ _ _ _ Hwd) as (a & Ha & Hheap1 & _).
  assert (Hr1 : heap w1 !! recipient = Some r).
  { rewrite Hheap1, list_lookup_insert_ne by done. assumption. }
  destruct (deposit recipient amt w1) as [[r2|e2] w2] eqn:Hdp.
  2:{ exfalso. revert Hdp. rewrite deposit_unfold, Hpos, Hmin, Hr1. discriminate. }
  destruct (deposit_returned _ _ _ _ _ Hdp) as (b & _ & Hheap2 & _).
  assert (Hs2 : is_Some (heap w2 !! self)).
  { apply lookup_lt_is_Some. rewrite Hheap2, Hheap1, !length_insert.
    eauto using lookup_lt_Some. }
  destruct Hs2 as [a2 ->]. discriminate.
Qed.

Lemma refused_transfer_of_a_deposit_amount_changes_nothing_witness :
  dec_ltb (D 10000 (-2)) MIN_DEPOSIT = false ∧
  transfer 0 (D 10000 (-2)) 1 two_accounts = (Raised InsufficientFunds, two_accounts) ∧
  two_accounts = two_accounts.
Proof.
  assert (H : transfer 0 (D 10000 (-2)) 1 two_accounts = (Raised InsufficientFunds, two_accounts))
    by (vm_compute; reflexivity).
  split; [reflexivity|]. split; [exact H|].
  exact (refused_transfer_of_a_deposit_amount_changes_nothing 0 1 (D 10000 (-2)) _ _ _
           eq_refl H).
Defined.

Section ExactTransfer.
Local Open Scope Q_scope.

(** X12.  A transfer that returns without any rounding (the context has
    raised no [Inexact] by then) moves the amount: the balance of the
    sender goes down by it, the balance of the recipient goes up by it, so
    that the sum of the two balances is what it was.  The sender's ledger
    grows by two records and the recipient's by one. *)
Theorem exact_transfer_moves_the_amount
    (self recipient : nat) (amt : Decimal) (w w' : World) (r : TxRef) (a b : Account) :
  heap w !! self = Some a →
  heap w !! recipient = Some b →
  transfer self amt recipient w = (Returned r, w') →
  flags_Inexact w' = false →
  ∃ a' b',
    heap w' !! self = Some a' ∧ heap w' !! recipient = Some b' ∧
    dval (balance a') == dval (balance a) - dval amt ∧
    dval (balance b') == dval (balance b) + dval amt ∧
    dval (balance a') + dval (balance b') == dval (balance a) + dval (balance b) ∧
    length (transactions a') = (length (transactions a) + 2)%nat ∧
    length (transactions b') = (length (transactions b) + 1)%nat.
Proof.
  intros Ha Hb. rewrite transfer_unfold.
  destruct (dec_leb amt (D 0 (-2))) eqn:Hpos; [discriminate|].
  destruct (bool_decide_reflect (self = recipient)) as [|Hne]; [discriminate|].
  rewrite Hb. destruct (negb _); [discriminate|].
  destruct (withdraw self amt w) as [[r1|e1] w1] eqn:Hwd; [|discriminate].
  destruct (deposit recipient amt w1) as [[r2|e2] w2] eqn:Hdp; [|discriminate].
  destruct (heap w2 !! self) as [a2|] eqn:Ha2; [|discriminate].
  intros [= <- <-]. simpl. intros [Hf2 _]%orb_false_elim.
  pose proof (deposit_keeps_ledger recipient amt w1) as Hk. rewrite Hdp in Hk.
  destruct (Hk Hf2) as [Hf1 _]. clear Hk.
  destruct (withdraw_exact _ _ _ _ _ _ Ha Hwd Hf1) as (a1 & t & Ha1 & Hts1 & _ & Hbal1).
  destruct (withdraw_returned _ _ _ _ _ Hwd) as (a0 & Ha0 & Hheap1 & _).
  assert (Hb1 : heap w1 !! recipient = Some b).
  { rewrite Hheap1, list_lookup_insert_ne by done. assumption. }
  destruct (deposit_exact _ _ _ _ _ _ Hb1 Hdp Hf2) as (b2 & Hb2 & Hbal2 & _).
  destruct (deposit_returned _ _ _ _ _ Hdp) as (b0 & Hb0 & Hheap2 & _).
  assert (Heq : a2 = a1).
  { rewrite Hheap2, list_lookup_insert_ne in Ha2 by done. congruence. }
  subst a2.
  exists (transactions_append (Transaction_init (dec_neg amt) "transfer") a1), b2.
  split; [apply list_lookup_insert_eq; eauto using lookup_lt_Some|].
  split; [rewrite list_lookup_insert_ne by done; assumption|].
  simpl. split; [assumption|]. split; [assumption|].
  split; [rewrite Hbal1, Hbal2; ring|].
  split.
  - rewrite Hts1, !length_app. simpl. lia.
  - rewrite Hheap2 in Hb2. rewrite list_lookup_insert_eq in Hb2 by eauto using lookup_lt_Some.
    injection Hb2 as <-. simpl. rewrite length_app. simpl.
    replace b0 with b by congruence. reflexivity.
Qed.

End ExactTransfer.

Lemma exact_transfer_moves_the_amount_witness :
  let w := run two_accounts [Deposit 0 (D 100000 (-2))] in
  let a := mkAccount "ACC-2001" "checking" (D 1000 0)
             [Transaction_init (D 100000 (-2)) "deposit"] true in
  let b := Account_init "ACC-2003" "checking" in
  let w' := (transfer 0 (D 10000 (-2)) 1 w).2 in
  heap w !! 0%nat = Some a ∧
  heap w !! 1%nat = Some b ∧
  transfer 0 (D 10000 (-2)) 1 w = (Returned (0%nat, 2%nat), w') ∧
  flags_Inexact w' = false ∧
  ∃ a' b',
    heap w' !! 0%nat = Some a' ∧ heap w' !! 1%nat = Some b' ∧
    (dval (balance a') == dval (balance a) - dval (D 10000 (-2)))%Q ∧
    (dval (balance b') == dval (balance b) + dval (D 10000 (-2)))%Q ∧
    (dval (balance a') + dval (balance b') == dval (balance a) + dval (balance b))%Q ∧
    length (transactions a') = (length (transactions a) + 2)%nat ∧
    length (transactions b') = (length (transactions b) + 1)%nat.
Proof.
  assert (Ha : heap (run two_accounts [Deposit 0 (D 100000 (-2))]) !! 0%nat =
               Some (mkAccount "ACC-2001" "checking" (D 1000 0)
                       [Transaction_init (D 100000 (-2)) "deposit"] true))
    by (vm_compute; reflexivity).
  assert (Hb : heap (run two_accounts [Deposit 0 (D 100000 (-2))]) !! 1%nat =
               Some (Account_init "ACC-2003" "checking"))
    by (vm_compute; reflexivity).
  assert (Ht : transfer 0 (D 10000 (-2)) 1 (run two_accounts [Deposit 0 (D 100000 (-2))]) =
               (Returned (0%nat, 2%nat),
                (transfer 0 (D 10000 (-2)) 1
                   (run two_accounts [Deposit 0 (D 100000 (-2))])).2))
    by (vm_compute; reflexivity).
  assert (Hf : flags_Inexact
                 (transfer 0 (D 10000 (-2)) 1
                    (run two_accounts [Deposit 0 (D 100000 (-2))])).2 = false)
    by (vm_compute; reflexivity).
  split; [exact Ha|]. split; [exact Hb|]. split; [exact Ht|]. split; [exact Hf|].
  exact (exact_transfer_moves_the_amount _ _ _ _ _ _ _ _ Ha Hb Ht Hf).
Defined.

(** The accounts of a later world continue those of an earlier one. *)
Lemma continues_refl a : continues a a.
Proof. unfold continues. repeat split; reflexivity. Qed.

Lemma continues_trans a b c : continues a b → continues b c → continues a c.
Proof.
  unfold continues. intros (H1 & H2 & H3 & H4) (G1 & G2 & G3 & G4).
  repeat split; try congruence. etrans; eassumption.
Qed.

Lemma continues_insert (h : list Account) self a0 a0' i a :
  h !! self = Some a0 → continues a0 a0' → h !! i = Some a →
  ∃ a', <[self := a0']> h !! i = Some a' ∧ continues a a'.
Proof.
  intros H0 Hc Hi. destruct (decide (self = i)) as [<-|Hne].
  - exists a0'. rewrite list_lookup_insert_eq by eauto using lookup_lt_Some.
    split; [reflexivity|]. congruence.
  - exists a. rewrite list_lookup_insert_ne by done. split; [assumption|apply continues_refl].
Qed.

Lemma deposit_continues self amt w i a :
  heap w !! i = Some a →
  ∃ a', heap (deposit self amt w).2 !! i = Some a' ∧ continues a a'.
Proof.
  intros Hi. rewrite deposit_unfold.
  destruct (dec_leb _ _); [eauto using continues_refl|].
  destruct (dec_ltb _ _); [eauto using continues_refl|].
  destruct (heap w !! self) as [a0|] eqn:H0; [|eauto using continues_refl]. simpl.
  eapply continues_insert; [eassumption| |assumption].
  unfold continues; simpl. repeat split. apply prefix_app_r. reflexivity.
Qed.

Lemma withdraw_continues self amt w i a :
  heap w !! i = Some a →
  ∃ a', heap (withdraw self amt w).2 !! i = Some a' ∧ continues a a'.
Proof.
  intros Hi. rewrite withdraw_unfold.
  destruct (dec_leb _ _); [eauto using continues_refl|].
  destruct (heap w !! self) as [a0|] eqn:H0; [|eauto using continues_refl].
  destruct (negb _); [eauto using continues_refl|].
  destruct (dec_ltb _ _); [eauto using continues_refl|].
  destruct (dec_gtb _ _); [eauto using continues_refl|].
  destruct (dec_gtb _ _); [eauto using continues_refl|]. simpl.
  eapply continues_insert; [eassumption| |assumption].
  unfold continues; simpl. repeat split. apply prefix_app_r. reflexivity.
Qed.

Lemma transfer_continues self amt recipient w i a :
  heap w !! i = Some a →
  ∃ a', heap (transfer self amt recipient w).2 !! i = Some a' ∧ continues a a'.
Proof.
  intros Hi. rewrite transfer_unfold.
  destruct (dec_leb _ _); [eauto using continues_refl|].
  destruct (bool_decide _); [eauto using continues_refl|].
  destruct (heap w !! recipient) as [r|]; [|eauto using continues_refl].
  destruct (negb _); [eauto using continues_refl|].
  destruct (withdraw_continues self amt w i a Hi) as (a1 & H1 & Hc1).
  destruct (withdraw self amt w) as [[r1|e1] w1]; simpl in H1; [|eauto].
  destruct (deposit_continues recipient amt w1 i a1 H1) as (a2 & H2 & Hc2).
  pose proof (continues_trans _ _ _ Hc1 Hc2) as Hc.
  destruct (deposit recipient amt w1) as [[r2|e2] w2]; simpl in H2; [|eauto].
  destruct (heap w2 !! self) as [a0|] eqn:H0; simpl; [|eauto].
  destruct (continues_insert (heap w2) self a0
              (transactions_append (Transaction_init (dec_neg amt) "transfer") a0) i a2)
    as (a3 & H3 & Hc3); [assumption| |assumption|].
  { unfold continues; simpl. repeat split. apply prefix_app_r. reflexivity. }
  exists a3. split; [assumption|]. eapply continues_trans; eassumption.
Qed.

Lemma perform_registry w o : accounts (perform w o) = accounts w.
Proof.
  destruct o as [self amt|self amt|self amt recipient]; simpl.
  - rewrite deposit_unfold.
    repeat match goal with |- context [if ?c then _ else _] => destruct c end;
      try reflexivity.
    destruct (heap w !! self); reflexivity.
  - rewrite withdraw_unfold. destruct (dec_leb _ _); [reflexivity|].
    destruct (heap w !! self); [|reflexivity].
    repeat match goal with |- context [if ?c then _ else _] => destruct c end;
      reflexivity.
  - rewrite transfer_unfold.
    destruct (dec_leb _ _); [reflexivity|]. destruct (bool_decide _); [reflexivity|].
    destruct (heap w !! recipient); [|reflexivity]. destruct (negb _); [reflexivity|].
    destruct (withdraw self amt w) as [[r1|e1] w1] eqn:Hwd.
    2:{ apply withdraw_raised in Hwd. subst. reflexivity. }
    apply withdraw_returned in Hwd as (? & _ & _ & Hacc1).
    destruct (deposit recipient amt w1) as [[r2|e2] w2] eqn:Hdp.
    2:{ apply deposit_raised in Hdp. subst. assumption. }
    apply deposit_returned in Hdp as (? & _ & _ & Hacc2).
    destruct (heap w2 !! self); simpl; congruence.
Qed.

(** X13.  Deposits, withdrawals and transfers never rewrite history.
    After any sequence of them, each returning or raising, every account
    is still there under the same identifier and type, with the same
    [is_active]; its earlier Transactions are the first of its ledger,
    unchanged, and the registry of the bank maps the same identifiers to
    the same accounts. *)
Theorem ledgers_are_append_only (w : World) (ops : list operation) (i : nat) (a : Account) :
  heap w !! i = Some a →
  accounts (run w ops) = accounts w ∧
  ∃ a', heap (run w ops) !! i = Some a' ∧
        account_id a' = account_id a ∧ account_type a' = account_type a ∧
        is_active a' = is_active a ∧
        ∃ added, transactions a' = transactions a ++ added.
Proof.
  revert w a. induction ops as [|o ops IH]; intros w a Hi; simpl.
  - split; [reflexivity|]. exists a. repeat split; try assumption.
    exists []. rewrite app_nil_r. reflexivity.
  - assert (Hstep : ∃ a1, heap (perform w o) !! i = Some a1 ∧ continues a a1).
    { destruct o; simpl.
      - apply deposit_continues; assumption.
      - apply withdraw_continues; assumption.
      - apply transfer_continues; assumption. }
    destruct Hstep as (a1 & H1 & (Hid & Hty & Hact & added1 & Hts)).
    destruct (IH _ _ H1) as (Hreg & a' & H' & Hid' & Hty' & Hact' & added & Hts').
    split; [rewrite Hreg; apply perform_registry|].
    exists a'. repeat split; try congruence.
    exists (added1 ++ added). rewrite Hts', Hts, app_assoc. reflexivity.
Qed.

Lemma ledgers_are_append_only_witness :
  let ops := [Deposit 0 (D 100000 (-2)); Transfer 0 (D 3000 (-2)) 1;
              Withdraw 0 (D 123456 (-2)); Withdraw 0 (D 12345 (-2))] in
  let a := Account_init "ACC-2001" "checking" in
  heap two_accounts !! 0%nat = Some a ∧
  accounts (run two_accounts ops) = accounts two_accounts ∧
  ∃ a', heap (run two_accounts ops) !! 0%nat = Some a' ∧
        account_id a' = account_id a ∧ account_type a' = account_type a ∧
        is_active a' = is_active a ∧
        ∃ added, transactions a' = transactions a ++ added.
Proof.
  split; [reflexivity|].
  exact (ledgers_are_append_only two_accounts _ 0%nat _ eq_refl).
Defined.

(** X14.  A transfer touches the two accounts it names and no other:
    whether it returns or raises, every other account is the same object
    in the same state afterwards, and no account is created or lost. *)
Theorem transfer_touches_only_its_two_accounts
    (self recipient : nat) (amt : Decimal) (w : World) (i : nat) :
  i ≠ self → i ≠ recipient →
  heap (transfer self amt recipient w).2 !! i = heap w !! i ∧
  length (heap (transfer self amt recipient w).2) = length (heap w).
Proof.
  intros Hs Hr. rewrite transfer_unfold.
  destruct (dec_leb _ _); [done|]. destruct (bool_decide _); [done|].
  destruct (heap w !! recipient) as [rcp|]; [|done]. destruct (negb _); [done|].
  destruct (withdraw self amt w) as [[r1|e1] w1] eqn:Hwd.
  2:{ apply withdraw_raised in Hwd. subst. done. }
  apply withdraw_returned in Hwd as (sender & _ & Hheap1 & _).
  destruct (deposit recipient amt w1) as [[r2|e2] w2] eqn:Hdp.
  2:{ apply deposit_raised in Hdp. subst. simpl. rewrite Hheap1, length_insert.
      rewrite list_lookup_insert_ne by done. done. }
  apply deposit_returned in Hdp as (b & _ & Hheap2 & _).
  destruct (heap w2 !! self); simpl; rewrite ?length_insert, Hheap2, Hheap1, ?length_insert;
    rewrite ?list_lookup_insert_ne by done; done.
Qed.

Lemma transfer_touches_only_its_two_accounts_witness :
  let w := mkWorld [mkAccount "ACC-2001" "checking" (D 100000 (-2)) [] true;
                    Account_init "ACC-2002" "savings";
                    Account_init "ACC-2003" "checking"] ∅ false in
  2%nat ≠ 0%nat ∧ 2%nat ≠ 1%nat ∧
  heap (transfer 0 (D 3000 (-2)) 1 w).2 !! 2%nat = heap w !! 2%nat ∧
  length (heap (transfer 0 (D 3000 (-2)) 1 w).2) = length (heap w).
Proof.
  split; [lia|]. split; [lia|].
  exact (transfer_touches_only_its_two_accounts 0 1 (D 3000 (-2)) _ 2
           ltac:(lia) ltac:(lia)).
Defined.

(** ** Reversing a reversal *)

Section ReverseTwice.
Local Open Scope Q_scope.


End ReverseTwice.


(** ** The registries of the bank and of its customers *)

Lemma dict_set_new {V} (k : string) (v : V) (d : list (string * V)) :
  dict_get k d = None → dict_set k v d = d ++ [(k, v)].
Proof.
  induction d as [|[k' v'] d IH]; simpl; [reflexivity|].
  destruct (String.eqb k k'); [discriminate|]. intros H. rewrite (IH H). reflexivity.
Qed.

Lemma dict_get_set {V} (k : string) (v : V) (d : list (string * V)) :
  dict_get k (dict_set k v d) = Some v.
Proof.
  induction d as [|[k' v'] d IH]; simpl.
  - rewrite String.eqb_refl. reflexivity.
  - destruct (String.eqb k k') eqn:Hk; simpl; rewrite Hk; [reflexivity|assumption].
Qed.



(** [add_account] in closed form. *)
Lemma add_account_unfold (account : nat) (b : Bank) :
  add_account account b =
    match heap (world b) !! account with
    | None => (Err (EngineError DanglingReference), b)
    | Some a =>
        match accounts (world b) !! account_id a with
        | Some _ =>
            (Err (EngineError
                    (ValueError ("Account with ID " +:+ account_id a +:+ " already exists"))),
             b)
        | None =>
            let b1 :=
              set_world (mkWorld (heap (world b))
                           (<[account_id a := account]> (accounts (world b)))
                           (flags_Inexact (world b))) b in
            match account_customer b !! account with
            | None => (Err (EngineError DanglingReference), b1)
            | Some customer =>
                match customer_heap b !! customer with
                | None => (Err (EngineError DanglingReference), b1)
                | Some c =>
                    if dict_mem (account_id a) (customer_accounts c) then
                      (Err (EngineError
                              (ValueError "Account already exists for this customer")), b1)
                    else
                      (Ok tt,
                       set_customer_heap
                         (alter (λ c, mkCustomer (customer_id c) (customer_name c)
                                        (customer_email c) (customer_phone c)
                                        (dict_set (account_id a) account (customer_accounts c))
                                        (customer_loans c))
                            customer (customer_heap b)) b1)
                end
            end
        end
    end.
Proof.
  unfold add_account, Customer_add_account, engine, read, read_customer, update_customer,
    bank_get, bank_modify, bank_raise, mbind, BankM_bind, mret, BankM_ret.
  destruct b as [[h reg fl] ac ch cs lh ls]. simpl.
  destruct (h !! account) as [a|] eqn:Ha; [|reflexivity]. simpl.
  destruct (reg !! account_id a); [reflexivity|]. simpl.
  destruct (ac !! account) as [customer|]; [|reflexivity]. simpl.
  rewrite Ha. simpl.
  destruct (ch !! customer) as [c|]; [|reflexivity]. simpl.
  destruct (dict_mem (account_id a) (customer_accounts c)); reflexivity.
Qed.

(** X16.  An account added with [add_account] is registered twice: the
    bank finds it under its identifier with [get_account], and so does the
    customer it belongs to with [Customer.get_account]; it comes last
    among the accounts of the customer, so that the first account of a
    customer stays the first. *)
Theorem added_account_is_registered_with_bank_and_customer
    (b : Bank) (account customer : nat) (a : Account) (c : Customer) :
  heap (world b) !! account = Some a →
  accounts (world b) !! account_id a = None →
  account_customer b !! account = Some customer →
  customer_heap b !! customer = Some c →
  dict_get (account_id a) (customer_accounts c) = None →
  ∃ b' c',
    add_account account b = (Ok tt, b') ∧
    engine (get_account (account_id a)) b' = (Ok account, b') ∧
    Customer_get_account customer (account_id a) b' = (Ok account, b') ∧
    customer_heap b' !! customer = Some c' ∧
    dict_values (customer_accounts c') = dict_values (customer_accounts c) ++ [account].
Proof.
  intros Ha Hfree Hcust Hc Hnew. rewrite add_account_unfold, Ha, Hfree, Hcust, Hc.
  unfold dict_mem. rewrite Hnew. cbv zeta.
  eexists _, _. split; [reflexivity|].
  unfold engine, get_account, Customer_get_account, read_customer, mbind, BankM_bind,
    mret, BankM_ret, bank_raise.
  destruct b as [[h reg fl] ac ch cs lh ls]. simpl in *.
  rewrite lookup_insert_eq. split; [reflexivity|].
  rewrite list_lookup_alter_eq, Hc. simpl. rewrite dict_get_set.
  split; [reflexivity|]. split; [reflexivity|].
  rewrite (dict_set_new _ _ _ Hnew). unfold dict_values. apply map_app.
Qed.

(** X17.  [add_account] writes the registry of the bank before it asks
    the customer.  When the identifier is free at the bank but the
    customer already holds an account under it (an account closed with
    [close_account] stays with its customer), the call raises ValueError
    and yet the bank now finds the new account under the identifier; the
    customer keeps the old one. *)
Theorem refused_account_stays_in_the_registry_of_the_bank
    (b : Bank) (account customer other : nat) (a : Account) (c : Customer) :
  heap (world b) !! account = Some a →
  accounts (world b) !! account_id a = None →
  account_customer b !! account = Some customer →
  customer_heap b !! customer = Some c →
  dict_get (account_id a) (customer_accounts c) = Some other →
  ∃ b',
    add_account account b =
      (Err (EngineError (ValueError "Account already exists for this customer")), b') ∧
    engine (get_account (account_id a)) b' = (Ok account, b') ∧
    Customer_get_account customer (account_id a) b' = (Ok other, b').
Proof.
  intros Ha Hfree Hcust Hc Hold. rewrite add_account_unfold, Ha, Hfree, Hcust, Hc.
  unfold dict_mem. rewrite Hold. cbv zeta.
  eexists. split; [reflexivity|].
  unfold engine, get_account, Customer_get_account, read_customer, mbind, BankM_bind,
    mret, BankM_ret, bank_raise.
  destruct b as [[h reg fl] ac ch cs lh ls]. simpl in *.
  rewrite lookup_insert_eq, Hc. simpl. rewrite Hold. split; reflexivity.
Qed.

Lemma added_account_is_registered_with_bank_and_customer_witness :
  let a := Account_init "ACC-2002" "savings" in
  let c := mkCustomer "CUST-1001" "John Doe" "john.doe@example.com" "555-0101"
             [("ACC-2001", 0%nat)] [] in
  let b := mkBank (mkWorld [Account_init "ACC-2001" "checking"; a]
                     (<["ACC-2001" := 0%nat]> ∅) false)
             (<[1%nat := 0%nat]> (<[0%nat := 0%nat]> ∅)) [c]
             (<["CUST-1001" := 0%nat]> ∅) [] ∅ in
  heap (world b) !! 1%nat = Some a ∧
  accounts (world b) !! account_id a = None ∧
  account_customer b !! 1%nat = Some 0%nat ∧
  customer_heap b !! 0%nat = Some c ∧
  dict_get (account_id a) (customer_accounts c) = None ∧
  ∃ b' c',
    add_account 1 b = (Ok tt, b') ∧
    engine (get_account (account_id a)) b' = (Ok 1%nat, b') ∧
    Customer_get_account 0 (account_id a) b' = (Ok 1%nat, b') ∧
    customer_heap b' !! 0%nat = Some c' ∧
    dict_values (customer_accounts c') = dict_values (customer_accounts c) ++ [1%nat].
Proof.
  repeat (split; [vm_compute; reflexivity|]).
  exact (added_account_is_registered_with_bank_and_customer
           (mkBank (mkWorld [Account_init "ACC-2001" "checking";
                             Account_init "ACC-2002" "savings"]
                      (<["ACC-2001" := 0%nat]> ∅) false)
              (<[1%nat := 0%nat]> (<[0%nat := 0%nat]> ∅))
              [mkCustomer "CUST-1001" "John Doe" "john.doe@example.com" "555-0101"
                 [("ACC-2001", 0%nat)] []]
              (<["CUST-1001" := 0%nat]> ∅) [] ∅)
           1 0 _ _ eq_refl eq_refl eq_refl eq_refl eq_refl).
Defined.

Lemma refused_account_stays_in_the_registry_of_the_bank_witness :
  let closed := mkAccount "ACC-2001" "checking" (D 0 (-2)) [] false in
  let a := Account_init "ACC-2001" "savings" in
  let c := mkCustomer "CUST-1001" "John Doe" "john.doe@example.com" "555-0101"
             [("ACC-2001", 0%nat)] [] in
  let b := mkBank (mkWorld [closed; a] ∅ false)
             (<[1%nat := 0%nat]> (<[0%nat := 0%nat]> ∅)) [c]
             (<["CUST-1001" := 0%nat]> ∅) [] ∅ in
  heap (world b) !! 1%nat = Some a ∧
  accounts (world b) !! account_id a = None ∧
  account_customer b !! 1%nat = Some 0%nat ∧
  customer_heap b !! 0%nat = Some c ∧
  dict_get (account_id a) (customer_accounts c) = Some 0%nat ∧
  ∃ b',
    add_account 1 b =
      (Err (EngineError (ValueError "Account already exists for this customer")), b') ∧
    engine (get_account (account_id a)) b' = (Ok 1%nat, b') ∧
    Customer_get_account 0 (account_id a) b' = (Ok 0%nat, b').
Proof.
  repeat (split; [vm_compute; reflexivity|]).
  exact (refused_account_stays_in_the_registry_of_the_bank
           (mkBank (mkWorld [mkAccount "ACC-2001" "checking" (D 0 (-2)) [] false;
                             Account_init "ACC-2001" "savings"] ∅ false)
              (<[1%nat := 0%nat]> (<[0%nat := 0%nat]> ∅))
              [mkCustomer "CUST-1001" "John Doe" "john.doe@example.com" "555-0101"
                 [("ACC-2001", 0%nat)] []]
              (<["CUST-1001" := 0%nat]> ∅) [] ∅)
           1 0 0 _ _ eq_refl eq_refl eq_refl eq_refl eq_refl).
Defined.

(** [close_account] in closed form. *)
Lemma close_account_unfold (id : string) (w : World) :
  close_account id w =
    match accounts w !! id with
    | None => (Raised (AccountNotFoundError ("Account " +:+ id +:+ " not found")), w)
    | Some l =>
        match heap w !! l with
        | None => (Raised DanglingReference, w)
        | Some a =>
            if negb (dec_eqb (balance a) (D 0 0)) then (Raised NonZeroBalance, w)
            else (Returned tt,
                  mkWorld (<[l := set_is_active false a]> (heap w))
                    (delete id (accounts w)) (flags_Inexact w))
        end
    end.
Proof.
  unfold close_account, get_account. unfold_monad.
  destruct (accounts w !! id) as [l|]; [|reflexivity]. simpl.
  destruct (heap w !! l) as [a|] eqn:Ha; [|reflexivity]. simpl.
  destruct (dec_eqb (balance a) (D 0 0)); [|reflexivity]. simpl.
  rewrite (alter_insert _ _ _ _ Ha). reflexivity.
Qed.

(** X18.  Closing a registered account whose balance is zero (written
    with any exponent) succeeds and puts it out of reach: the account is
    inactive, with its balance and its ledger as they were; the bank no
    longer knows the identifier, so that a transfer of funds from it or to
    it and a second [close_account] are refused with AccountNotFoundError
    and change nothing; and a withdrawal asked of the account itself is
    refused as well. *)
Theorem closed_account_is_out_of_reach (id : string) (w : World) (l : nat) (a : Account) :
  accounts w !! id = Some l →
  heap w !! l = Some a →
  dec_eqb (balance a) (D 0 0) = true →
  ∃ w',
    close_account id w = (Returned tt, w') ∧
    heap w' !! l = Some (set_is_active false a) ∧
    (∀ other, other ≠ id → accounts w' !! other = accounts w !! other) ∧
    (∀ other amt,
       transfer_funds id other amt w' =
         (Raised (AccountNotFoundError ("Account " +:+ id +:+ " not found")), w')) ∧
    (∀ other amt, is_Some (accounts w' !! other) →
       transfer_funds other id amt w' =
         (Raised (AccountNotFoundError ("Account " +:+ id +:+ " not found")), w')) ∧
    close_account id w' =
      (Raised (AccountNotFoundError ("Account " +:+ id +:+ " not found")), w') ∧
    (∀ amt, ∃ e, withdraw l amt w' = (Raised e, w')).
Proof.
  intros Hid Ha Hzero. rewrite close_account_unfold, Hid, Ha, Hzero. simpl.
  eexists. split; [reflexivity|].
  assert (Hl : <[l := set_is_active false a]> (heap w) !! l = Some (set_is_active false a)).
  { apply list_lookup_insert_eq. eauto using lookup_lt_Some. }
  split; [exact Hl|]. split; [|split; [|split; [|split]]].
  - intros other Hne. cbn [accounts]. apply lookup_delete_ne. congruence.
  - intros other amt. unfold transfer_funds, get_account, mbind, M_bind. cbn [accounts].
    rewrite lookup_delete_eq. reflexivity.
  - intros other amt [l' Hother]. unfold transfer_funds, get_account, mbind, M_bind.
    cbn [accounts] in *. rewrite Hother. cbn [accounts]. rewrite lookup_delete_eq.
    reflexivity.
  - rewrite close_account_unfold. cbn [accounts]. rewrite lookup_delete_eq. reflexivity.
  - intros amt. rewrite withdraw_unfold. simpl.
    destruct (dec_leb amt (D 0 (-2))); [eauto|]. rewrite Hl. simpl. eauto.
Qed.

Lemma closed_account_is_out_of_reach_witness :
  let a := mkAccount "ACC-2001" "checking" (D 0 2) [] true in
  let w := mkWorld [a; Account_init "ACC-2003" "checking"]
             (<["ACC-2001" := 0%nat]> (<["ACC-2003" := 1%nat]> ∅)) false in
  accounts w !! "ACC-2001" = Some 0%nat ∧
  heap w !! 0%nat = Some a ∧
  dec_eqb (balance a) (D 0 0) = true ∧
  ∃ w',
    close_account "ACC-2001" w = (Returned tt, w') ∧
    heap w' !! 0%nat = Some (set_is_active false a) ∧
    (∀ other, other ≠ "ACC-2001" → accounts w' !! other = accounts w !! other) ∧
    (∀ other amt,
       transfer_funds "ACC-2001" other amt w' =
         (Raised (AccountNotFoundError ("Account " +:+ "ACC-2001" +:+ " not found")), w')) ∧
    (∀ other amt, is_Some (accounts w' !! other) →
       transfer_funds other "ACC-2001" amt w' =
         (Raised (AccountNotFoundError ("Account " +:+ "ACC-2001" +:+ " not found")), w')) ∧
    close_account "ACC-2001" w' =
      (Raised (AccountNotFoundError ("Account " +:+ "ACC-2001" +:+ " not found")), w') ∧
    (∀ amt, ∃ e, withdraw 0 amt w' = (Raised e, w')).
Proof.
  repeat (split; [vm_compute; reflexivity|]).
  exact (closed_account_is_out_of_reach "ACC-2001"
           (mkWorld [mkAccount "ACC-2001" "checking" (D 0 2) [] true;
                     Account_init "ACC-2003" "checking"]
              (<["ACC-2001" := 0%nat]> (<["ACC-2003" := 1%nat]> ∅)) false)
           0 _ eq_refl eq_refl eq_refl).
Defined.

(** X19.  A [close_account] that is refused, because the identifier is
    unknown or the balance is not zero, changes nothing: the account stays
    registered and active. *)
Theorem refused_close_account_changes_nothing (id : string) (w w' : World) (e : exn) :
  close_account id w = (Raised e, w') → w' = w.
Proof.
  rewrite close_account_unfold.
  destruct (accounts w !! id) as [l|]; [|congruence].
  destruct (heap w !! l) as [a|]; [|congruence].
  destruct (negb _); [congruence|discriminate].
Qed.

Lemma refused_close_account_changes_nothing_witness :
  let w := run two_accounts [Deposit 0 (D 100000 (-2))] in
  close_account "ACC-2001" w = (Raised NonZeroBalance, w) ∧ w = w.
Proof.
  assert (H : close_account "ACC-2001" (run two_accounts [Deposit 0 (D 100000 (-2))]) =
              (Raised NonZeroBalance, run two_accounts [Deposit 0 (D 100000 (-2))]))
    by (vm_compute; reflexivity).
  split; [exact H|].
  exact (refused_close_account_changes_nothing _ _ _ _ H).
Defined.

(** ** Loans at the bank *)

Lemma same_but_flags_refl b : same_but_flags b b.
Proof. unfold same_but_flags. repeat split. Qed.

Lemma same_but_flags_trans b1 b2 b3 :
  same_but_flags b1 b2 → same_but_flags b2 b3 → same_but_flags b1 b3.
Proof. unfold same_but_flags. intuition congruence. Qed.

(** Summing balances reads the accounts and raises flags, nothing else. *)
Lemma sum_balances_frame (l : list nat) : ∀ total b r b',
  sum_balances l total b = (r, b') → same_but_flags b b'.
Proof.
  induction l as [|account l IH]; intros total b r b'; simpl.
  - unfold mret, BankM_ret. intros [= <- <-]. apply same_but_flags_refl.
  - unfold mbind, BankM_bind, engine, read, ctx_add, signal, modify, mret, M_ret,
      mbind, M_bind.
    destruct (heap (world b) !! account) as [a|]; simpl.
    + intros H. apply IH in H. eapply same_but_flags_trans; [|exact H].
      unfold same_but_flags. destruct b as [[h reg fl] ac ch cs lh ls]. simpl.
      repeat split.
    + intros [= <- <-]. unfold same_but_flags.
      destruct b as [[h reg fl] ac ch cs lh ls]. simpl. repeat split.
Qed.

Lemma total_balance_frame customer b r b' :
  Customer_get_total_balance customer b = (r, b') →
  same_but_flags b b' ∧
  ∀ total, r = Ok total →
    ∃ c, customer_heap b !! customer = Some c ∧
         (customer_accounts c = [] → total = D 0 0).
Proof.
  unfold Customer_get_total_balance, read_customer, mbind, BankM_bind.
  destruct (customer_heap b !! customer) as [c|] eqn:Hc.
  - intros H. split; [exact (sum_balances_frame _ _ _ _ _ H)|].
    intros total ->. exists c. split; [reflexivity|].
    intros Hnil. rewrite Hnil in H. simpl in H. unfold mret, BankM_ret in H. congruence.
  - intros [= <- <-]. split; [apply same_but_flags_refl|]. intros total [=].
Qed.

Lemma bank_bind_unfold {A B} (m : BankM A) (f : A → BankM B) (b : Bank) :
  (m ≫= f) b =
    match m b with
    | (Ok a, b') => f a b'
    | (Err e, b') => (Err e, b')
    end.
Proof. reflexivity. Qed.

Lemma get_customer_unfold (cid : string) (b : Bank) :
  get_customer cid b =
    match customers b !! cid with
    | Some customer => (Ok customer, b)
    | None => (Err (CustomerNotFoundError ("Customer " +:+ cid +:+ " not found")), b)
    end.
Proof.
  unfold get_customer, bank_get, bank_raise, mbind, BankM_bind, mret, BankM_ret.
  destruct (customers b !! cid); reflexivity.
Qed.

(** The sum of the balances fails only on a location that holds no
    object. *)
Lemma sum_balances_error (l : list nat) : ∀ total b e b',
  sum_balances l total b = (Err e, b') → e = EngineError DanglingReference.
Proof.
  induction l as [|account l IH]; intros total b e b'; simpl.
  - discriminate.
  - unfold mbind, BankM_bind, engine, read, ctx_add, signal, modify, mret, M_ret,
      mbind, M_bind.
    destruct (heap (world b) !! account); simpl.
    + apply IH.
    + congruence.
Qed.

Lemma total_balance_error customer b e b' :
  Customer_get_total_balance customer b = (Err e, b') → e = EngineError DanglingReference.
Proof.
  unfold Customer_get_total_balance, read_customer, mbind, BankM_bind.
  destruct (customer_heap b !! customer) as [c|]; [apply sum_balances_error|congruence].
Qed.

(** [create_loan] in closed form, after the total balance was summed. *)
Lemma create_loan_unfold (loan_id cid : string) (amt : Decimal) (b : Bank) :
  create_loan loan_id cid amt b =
    match customers b !! cid with
    | None => (Err (CustomerNotFoundError ("Customer " +:+ cid +:+ " not found")), b)
    | Some customer =>
        match Customer_get_total_balance customer b with
        | (Err e, b1) => (Err e, b1)
        | (Ok total, b1) =>
            let b2 :=
              set_world (mkWorld (heap (world b1)) (accounts (world b1))
                           (flags_Inexact (world b1) || inexact (mul_exact amt (D 1 (-1)))))
                b1 in
            if dec_ltb total (dec_mul amt (D 1 (-1))) then
              (Err (EngineError
                      (ValueError "Insufficient creditworthiness for this loan amount")), b2)
            else
              match Loan_init amt LOAN_INTEREST_RATE LOAN_TERM_YEARS with
              | Raised e => (Err (EngineError e), b2)
              | Returned l =>
                  let loan := length (loan_heap b2) in
                  let b5 :=
                    mkBank (world b2) (account_customer b2)
                      (alter (λ c, mkCustomer (customer_id c) (customer_name c)
                                     (customer_email c) (customer_phone c)
                                     (customer_accounts c) (customer_loans c ++ [loan]))
                         customer (customer_heap b2))
                      (customers b2) (loan_heap b2 ++ [l])
                      (<[loan_id := loan]> (loans b2)) in
                  match customer_heap b5 !! customer with
                  | None => (Err (EngineError DanglingReference), b5)
                  | Some c =>
                      match dict_values (customer_accounts c) with
                      | [] => (Err StopIteration, b5)
                      | primary_account :: _ =>
                          match deposit primary_account amt (world b5) with
                          | (Returned _, w) => (Ok loan, set_world w b5)
                          | (Raised e, w) => (Err (EngineError e), set_world w b5)
                          end
                      end
                  end
              end
        end
    end.
Proof.
  unfold create_loan. rewrite bank_bind_unfold, get_customer_unfold.
  destruct (customers b !! cid) as [customer|]; [|reflexivity].
  rewrite bank_bind_unfold.
  destruct (Customer_get_total_balance customer b) as [[total|e] b1]; [|reflexivity].
  rewrite bank_bind_unfold.
  unfold engine at 1, ctx_mul, signal, modify, mbind at 1, M_bind at 1, mret at 1, M_ret at 1.
  cbn beta iota zeta.
  destruct (dec_ltb total (dec_mul amt (D 1 (-1)))); [reflexivity|].
  rewrite bank_bind_unfold. unfold new_loan.
  destruct (Loan_init amt LOAN_INTEREST_RATE LOAN_TERM_YEARS) as [l|e]; [|reflexivity].
  unfold Customer_add_loan, update_customer, bank_modify, read_customer, bank_raise.
  unfold mbind, BankM_bind, mret, BankM_ret, engine.
  destruct b1 as [[h reg fl] ac ch cs lh ls]. cbn.
  destruct (alter _ customer ch !! customer) as [c|]; [|reflexivity].
  destruct (dict_values (customer_accounts c)) as [|primary_account rest]; [reflexivity|].
  destruct (deposit primary_account amt _) as [[r|e] w]; reflexivity.
Qed.




Lemma Loan_init_returned (amt rate : Decimal) (years : Z) (l : Loan) :
  Loan_init amt rate years = Returned l →
  dec_gtb amt (D 0 0) = true ∧ l = mkLoan amt amt rate (years * 12) [] true.
Proof.
  unfold Loan_init. destruct (dec_gtb amt (D 0 0)); [|discriminate]. simpl.
  destruct (negb _); [discriminate|]. destruct (negb _); [discriminate|].
  intros [= <-]. auto.
Qed.


(** X21.  A loan refused by the credit check leaves no trace: no loan is
    created or registered, and no customer, account, ledger or registry
    has changed (the flags of the decimal context apart, which the sum of
    the balances may have raised). *)
Theorem loan_refused_by_the_credit_check_leaves_no_trace
    (loan_id cid : string) (amt : Decimal) (b b' : Bank) :
  create_loan loan_id cid amt b =
    (Err (EngineError (ValueError "Insufficient creditworthiness for this loan amount")),
     b') →
  same_but_flags b b'.
Proof.
  rewrite create_loan_unfold.
  destruct (customers b !! cid) as [customer|]; [|discriminate].
  destruct (Customer_get_total_balance customer b) as [[total|e] b1] eqn:Htot.
  2:{ intros [= _ <-]. exact (proj1 (total_balance_frame _ _ _ _ Htot)). }
  destruct (total_balance_frame _ _ _ _ Htot) as [Hsame Hc].
  destruct (Hc total eq_refl) as (c & Hcust & _).
  cbv zeta.
  destruct (dec_ltb total (dec_mul amt (D 1 (-1)))).
  { intros [= <-]. destruct Hsame as (? & ? & ? & ? & ? & ? & ?).
    unfold same_but_flags. destruct b1 as [[h reg fl] ac ch cs lh ls]. simpl in *.
    repeat split; assumption. }
  destruct (Loan_init amt LOAN_INTEREST_RATE LOAN_TERM_YEARS) as [l|e] eqn:Hloan.
  2:{ intros [= -> _]. unfold Loan_init in Hloan.
      repeat match type of Hloan with
             | (if ?x then _ else _) = _ => destruct x
             end; discriminate. }
  cbn [customer_heap set_world].
  destruct (alter _ customer (customer_heap b1) !! customer) as [c'|]; [|discriminate].
  destruct (dict_values (customer_accounts c')) as [|primary rest]; [discriminate|].
  destruct (deposit primary amt _) as [[r|e] w] eqn:Hdep; [discriminate|].
  intros [= -> _]. exfalso. revert Hdep. rewrite deposit_unfold.
  repeat match goal with |- context [if ?x then _ else _] => destruct x end;
    try discriminate.
  destruct (heap _ !! primary); discriminate.
Qed.

Lemma loan_refused_by_the_credit_check_leaves_no_trace_witness :
  let b := Bank_init.2 in
  let b' := (create_loan "LOAN-1" "CUST-1002" (D 10000000 (-2)) b).2 in
  create_loan "LOAN-1" "CUST-1002" (D 10000000 (-2)) b =
    (Err (EngineError (ValueError "Insufficient creditworthiness for this loan amount")),
     b') ∧
  same_but_flags b b'.
Proof.
  assert (H : create_loan "LOAN-1" "CUST-1002" (D 10000000 (-2)) Bank_init.2 =
              (Err (EngineError
                      (ValueError "Insufficient creditworthiness for this loan amount")),
               (create_loan "LOAN-1" "CUST-1002" (D 10000000 (-2)) Bank_init.2).2))
    by (vm_compute; reflexivity).
  split; [exact H|].
  exact (loan_refused_by_the_credit_check_leaves_no_trace _ _ _ _ _ H).
Defined.

Lemma alter_insert_customer (f : Customer → Customer) (h : list Customer) i c :
  h !! i = Some c → alter f i h = <[i := f c]> h.
Proof.
  intros Hc. apply list_eq; intros j. destruct (decide (i = j)) as [<-|Hne].
  - rewrite list_lookup_alter_eq, Hc, list_lookup_insert_eq by eauto using lookup_lt_Some.
    reflexivity.
  - rewrite list_lookup_alter_ne, list_lookup_insert_ne by done. reflexivity.
Qed.

(** What [create_loan] has done when it returns or when the deposit into
    the first account of the customer is refused: the loan is constructed
    and entered in the books of the bank and of the customer, and the
    state is the one the deposit left. *)
Lemma create_loan_disburses (loan_id cid : string) (amt : Decimal) (b b' : Bank)
    (r : result nat) :
  create_loan loan_id cid amt b = (r, b') →
  (∃ loan, r = Ok loan) ∨ (∃ msg, r = Err (EngineError (InvalidAmountError msg))) →
  ∃ customer c primary rest b2 o w,
    customers b !! cid = Some customer ∧
    customer_heap b !! customer = Some c ∧
    dict_values (customer_accounts c) = primary :: rest ∧
    same_but_flags b b2 ∧
    dec_gtb amt (D 0 0) = true ∧
    deposit primary amt (world b2) = (o, w) ∧
    r = match o with
        | Returned _ => Ok (length (loan_heap b))
        | Raised e => Err (EngineError e)
        end ∧
    b' = mkBank w (account_customer b)
           (<[customer := mkCustomer (customer_id c) (customer_name c) (customer_email c)
                            (customer_phone c) (customer_accounts c)
                            (customer_loans c ++ [length (loan_heap b)])]> (customer_heap b))
           (customers b)
           (loan_heap b ++ [mkLoan amt amt LOAN_INTEREST_RATE 60 [] true])
           (<[loan_id := length (loan_heap b)]> (loans b)).
Proof.
  rewrite create_loan_unfold.
  destruct (customers b !! cid) as [customer|]; [|intros [= <- _] [[? [=]]|[? [=]]]].
  destruct (Customer_get_total_balance customer b) as [[total|e] b1] eqn:Htot.
  2:{ rewrite (total_balance_error _ _ _ _ Htot). intros [= <- _] [[? [=]]|[? [=]]]. }
  destruct (total_balance_frame _ _ _ _ Htot) as [Hsame Hc].
  destruct (Hc total eq_refl) as (c & Hcust & _).
  cbv zeta.
  destruct (dec_ltb total (dec_mul amt (D 1 (-1)))); [intros [= <- _] [[? [=]]|[? [=]]]|].
  destruct (Loan_init amt LOAN_INTEREST_RATE LOAN_TERM_YEARS) as [l|e] eqn:Hloan.
  2:{ intros [= <- _] [[? [=]]|[? [= ->]]]. exfalso. unfold Loan_init in Hloan.
      repeat match type of Hloan with
             | (if ?x then _ else _) = _ => destruct x
             end; discriminate. }
  apply Loan_init_returned in Hloan as [Hpos ->].
  destruct Hsame as (Hh & Hreg & Hac & Hch & Hcs & Hlh & Hls).
  cbn [customer_heap set_world loan_heap loans customers account_customer world].
  rewrite Hch, list_lookup_alter_eq, Hcust. cbn [fmap option_fmap option_map customer_accounts].
  destruct (dict_values (customer_accounts c)) as [|primary rest] eqn:Hacc;
    [intros [= <- _] [[? [=]]|[? [=]]]|].
  set (b2 := set_world (mkWorld (heap (world b1)) (accounts (world b1))
                          (flags_Inexact (world b1) || inexact (mul_exact amt (D 1 (-1)))))
               b1).
  destruct (deposit primary amt
              (mkWorld (heap (world b1)) (accounts (world b1))
                 (flags_Inexact (world b1) || inexact (mul_exact amt (D 1 (-1))))))
    as [o w] eqn:Hdep.
  intros Hr _.
  exists customer, c, primary, rest, b2, o, w.
  split; [reflexivity|]. split; [assumption|]. split; [assumption|].
  split; [subst b2; unfold same_but_flags; simpl; repeat split; assumption|].
  split; [assumption|]. split; [exact Hdep|].
  rewrite (alter_insert_customer _ _ _ _ Hcust), Hac, Hcs, Hlh, Hls in Hr.
  destruct o as [t|e]; injection Hr as <- <-; split; reflexivity.
Qed.

Lemma get_loan_unfold (loan_id : string) (b : Bank) :
  get_loan loan_id b =
    match loans b !! loan_id with
    | Some loan => (Ok loan, b)
    | None => (Err (EngineError (ValueError ("Loan " +:+ loan_id +:+ " not found"))), b)
    end.
Proof.
  unfold get_loan, bank_get, bank_raise, mbind, BankM_bind, mret, BankM_ret.
  destruct (loans b !! loan_id); reflexivity.
Qed.

(** X22.  A loan that [create_loan] grants is on the books and paid out.
    [get_loan] finds it under its identifier; it starts with the whole
    amount remaining, the rate of the bank, a term of 60 months, no
    payment and active; it is the last of the loans of the customer; and
    the amount was deposited, as a deposit Transaction, into the first
    account the customer was given.  Only amounts of at least the minimum
    deposit are granted. *)
Theorem granted_loan_is_booked_and_paid_out
    (loan_id cid : string) (amt : Decimal) (b b' : Bank) (loan : nat) :
  create_loan loan_id cid amt b = (Ok loan, b') →
  ∃ customer c c' primary a,
    customers b !! cid = Some customer ∧
    customer_heap b !! customer = Some c ∧
    head (dict_values (customer_accounts c)) = Some primary ∧
    heap (world b) !! primary = Some a ∧
    get_loan loan_id b' = (Ok loan, b') ∧
    loan_heap b' !! loan = Some (mkLoan amt amt LOAN_INTEREST_RATE 60 [] true) ∧
    customer_heap b' !! customer = Some c' ∧
    customer_loans c' = customer_loans c ++ [loan] ∧
    customer_accounts c' = customer_accounts c ∧
    heap (world b') =
      <[primary := transactions_append (Transaction_init amt "deposit")
                     (set_balance (dec_add (balance a) amt) a)]> (heap (world b)) ∧
    dec_ltb amt MIN_DEPOSIT = false.
Proof.
  intros H.
  destruct (create_loan_disburses _ _ _ _ _ _ H ltac:(eauto))
    as (customer & c & primary & rest & b2 & o & w & Hcid & Hc & Hacc & Hsame & _ &
        Hdep & Hr & ->).
  destruct o as [t|e]; [|discriminate]. injection Hr as ->.
  destruct Hsame as (Hh & _).
  pose proof Hdep as Hmin. rewrite deposit_unfold in Hmin.
  destruct (dec_leb amt (D 0 (-2))); [discriminate|].
  destruct (dec_ltb amt MIN_DEPOSIT); [discriminate|]. clear Hmin.
  destruct (deposit_returned _ _ _ _ _ Hdep) as (a & Ha & Hheap & _).
  rewrite Hh in Ha, Hheap.
  eexists customer, c, _, primary, a.
  split; [assumption|]. split; [assumption|]. split; [rewrite Hacc; reflexivity|].
  split; [assumption|].
  split; [rewrite get_loan_unfold; cbn [loans]; rewrite lookup_insert_eq; reflexivity|].
  split; [cbn [loan_heap]; apply list_lookup_middle; reflexivity|].
  split; [cbn [customer_heap]; apply list_lookup_insert_eq; eauto using lookup_lt_Some|].
  split; [reflexivity|]. split; [reflexivity|]. split; [exact Hheap|reflexivity].
Qed.

Lemma granted_loan_is_booked_and_paid_out_witness :
  let b := Bank_init.2 in
  let b' := (create_loan "LOAN-1" "CUST-1001" (D 1000000 (-2)) b).2 in
  create_loan "LOAN-1" "CUST-1001" (D 1000000 (-2)) b = (Ok 0%nat, b') ∧
  ∃ customer c c' primary a,
    customers b !! "CUST-1001" = Some customer ∧
    customer_heap b !! customer = Some c ∧
    head (dict_values (customer_accounts c)) = Some primary ∧
    heap (world b) !! primary = Some a ∧
    get_loan "LOAN-1" b' = (Ok 0%nat, b') ∧
    loan_heap b' !! 0%nat = Some (mkLoan (D 1000000 (-2)) (D 1000000 (-2))
                                    LOAN_INTEREST_RATE 60 [] true) ∧
    customer_heap b' !! customer = Some c' ∧
    customer_loans c' = customer_loans c ++ [0%nat] ∧
    customer_accounts c' = customer_accounts c ∧
    heap (world b') =
      <[primary := transactions_append (Transaction_init (D 1000000 (-2)) "deposit")
                     (set_balance (dec_add (balance a) (D 1000000 (-2))) a)]>
        (heap (world b)) ∧
    dec_ltb (D 1000000 (-2)) MIN_DEPOSIT = false.
Proof.
  assert (H : create_loan "LOAN-1" "CUST-1001" (D 1000000 (-2)) Bank_init.2 =
              (Ok 0%nat, (create_loan "LOAN-1" "CUST-1001" (D 1000000 (-2)) Bank_init.2).2))
    by (vm_compute; reflexivity).
  split; [exact H|].
  exact (granted_loan_is_booked_and_paid_out _ _ _ _ _ _ H).
Defined.

(** X23.  [create_loan] books the loan before it pays it out.  When the
    deposit into the first account of the customer is refused for its
    amount, which happens for every amount below the minimum deposit that
    passes the credit check, the call raises InvalidAmountError, and yet
    the loan stays registered with the bank ([get_loan] finds it) and with
    the customer, while no account has received anything. *)
Theorem loan_below_the_minimum_deposit_is_booked_but_not_paid_out
    (loan_id cid : string) (amt : Decimal) (b b' : Bank) (msg : string) :
  create_loan loan_id cid amt b = (Err (EngineError (InvalidAmountError msg)), b') →
  msg = "Minimum deposit is 50.00" ∧
  dec_ltb amt MIN_DEPOSIT = true ∧
  get_loan loan_id b' = (Ok (length (loan_heap b)), b') ∧
  loan_heap b' = loan_heap b ++ [mkLoan amt amt LOAN_INTEREST_RATE 60 [] true] ∧
  (∃ customer c c',
     customers b !! cid = Some customer ∧
     customer_heap b !! customer = Some c ∧
     customer_heap b' !! customer = Some c' ∧
     customer_loans c' = customer_loans c ++ [length (loan_heap b)]) ∧
  heap (world b') = heap (world b) ∧
  accounts (world b') = accounts (world b).
Proof.
  intros H.
  destruct (create_loan_disburses _ _ _ _ _ _ H ltac:(eauto))
    as (customer & c & primary & rest & b2 & o & w & Hcid & Hc & Hacc & Hsame & Hpos &
        Hdep & Hr & ->).
  destruct o as [t|e]; [discriminate|]. injection Hr as <-.
  destruct Hsame as (Hh & Hreg & _).
  pose proof (deposit_raised _ _ _ _ _ Hdep) as ->.
  rewrite deposit_unfold in Hdep.
  assert (Hnot : dec_leb amt (D 0 (-2)) = false).
  { apply dec_leb_false. rewrite dval_zero.
    unfold dec_gtb in Hpos. apply dec_ltb_spec in Hpos. rewrite dval_zero in Hpos.
    assumption. }
  rewrite Hnot in Hdep.
  destruct (dec_ltb amt MIN_DEPOSIT) eqn:Hmin.
  2:{ destruct (heap (world b2) !! primary); discriminate. }
  injection Hdep as <-.
  split; [reflexivity|]. split; [reflexivity|].
  split; [rewrite get_loan_unfold; cbn [loans]; rewrite lookup_insert_eq; reflexivity|].
  split; [reflexivity|].
  split; [|split; assumption].
  eexists customer, c, _. split; [assumption|]. split; [assumption|].
  split; [cbn [customer_heap]; apply list_lookup_insert_eq; eauto using lookup_lt_Some|].
  reflexivity.
Qed.

Lemma loan_below_the_minimum_deposit_is_booked_but_not_paid_out_witness :
  let b := Bank_init.2 in
  let b' := (create_loan "LOAN-1" "CUST-1001" (D 3000 (-2)) b).2 in
  create_loan "LOAN-1" "CUST-1001" (D 3000 (-2)) b =
    (Err (EngineError (InvalidAmountError "Minimum deposit is 50.00")), b') ∧
  "Minimum deposit is 50.00" = "Minimum deposit is 50.00" ∧
  dec_ltb (D 3000 (-2)) MIN_DEPOSIT = true ∧
  get_loan "LOAN-1" b' = (Ok (length (loan_heap b)), b') ∧
  loan_heap b' = loan_heap b ++ [mkLoan (D 3000 (-2)) (D 3000 (-2))
                                   LOAN_INTEREST_RATE 60 [] true] ∧
  (∃ customer c c',
     customers b !! "CUST-1001" = Some customer ∧
     customer_heap b !! customer = Some c ∧
     customer_heap b' !! customer = Some c' ∧
     customer_loans c' = customer_loans c ++ [length (loan_heap b)]) ∧
  heap (world b') = heap (world b) ∧
  accounts (world b') = accounts (world b).
Proof.
  assert (H : create_loan "LOAN-1" "CUST-1001" (D 3000 (-2)) Bank_init.2 =
              (Err (EngineError (InvalidAmountError "Minimum deposit is 50.00")),
               (create_loan "LOAN-1" "CUST-1001" (D 3000 (-2)) Bank_init.2).2))
    by (vm_compute; reflexivity).
  split; [exact H|].
  exact (loan_below_the_minimum_deposit_is_booked_but_not_paid_out _ _ _ _ _ _ H).
Defined.


(** The flag of the context is never lowered by the sum. *)
Lemma sum_balances_flag (l : list nat) : ∀ total b r b',
  sum_balances l total b = (r, b') →
  flags_Inexact (world b') = false → flags_Inexact (world b) = false.
Proof.
  induction l as [|account l IH]; intros total b r b'; simpl.
  - unfold mret, BankM_ret. intros [= <- <-]. auto.
  - unfold mbind, BankM_bind, engine, read, ctx_add, signal, modify, mret, M_ret,
      mbind, M_bind.
    destruct (heap (world b) !! account) as [a|]; simpl.
    + intros H Hf. pose proof (IH _ _ _ _ H Hf) as Hle. simpl in Hle.
      apply orb_false_elim in Hle. tauto.
    + intros [= <- <-]. auto.
Qed.

Section TotalBalance.
Local Open Scope Q_scope.

Lemma sum_balances_exact (l : list nat) : ∀ total b total' b',
  sum_balances l total b = (Ok total', b') →
  flags_Inexact (world b') = false →
  ∃ held,
    Forall2 (λ account a, heap (world b) !! account = Some a) l held ∧
    dval total' == dval total + foldr (λ a s, dval (balance a) + s) 0 held.
Proof.
  induction l as [|account l IH]; intros total b total' b'; simpl.
  - unfold mret, BankM_ret. intros [= <- <-] _. exists []. split; [constructor|].
    simpl. ring.
  - unfold mbind, BankM_bind, engine, read, ctx_add, signal, modify, mret, M_ret,
      mbind, M_bind.
    destruct (heap (world b) !! account) as [a|] eqn:Ha; simpl; [|discriminate].
    intros H Hflag.
    destruct (IH _ _ _ _ H Hflag) as (held & Hheld & Hsum).
    pose proof (sum_balances_flag _ _ _ _ _ H Hflag) as Hmid. simpl in Hmid.
    apply orb_false_elim in Hmid as [_ Hex].
    exists (a :: held). split.
    + constructor; [assumption|]. simpl in Hheld. exact Hheld.
    + rewrite Hsum. unfold dec_add. rewrite (dval_dfix _ Hex), dval_add_exact.
      simpl. ring.
Qed.

(** X25.  The total balance of a customer is the sum of the balances of
    all the accounts the customer holds, in the order they were added and
    the closed ones included, as long as no addition lost digits to
    rounding (the context has raised no [Inexact] by the end). *)
Theorem total_balance_is_the_sum_of_the_balances
    (b b' : Bank) (customer : nat) (c : Customer) (total : Decimal) :
  customer_heap b !! customer = Some c →
  Customer_get_total_balance customer b = (Ok total, b') →
  flags_Inexact (world b') = false →
  ∃ held,
    Forall2 (λ account a, heap (world b) !! account = Some a)
      (dict_values (customer_accounts c)) held ∧
    dval total == foldr (λ a s, dval (balance a) + s) 0 held.
Proof.
  intros Hc. unfold Customer_get_total_balance, read_customer, mbind, BankM_bind.
  rewrite Hc. intros H Hflag.
  destruct (sum_balances_exact _ _ _ _ _ H Hflag) as (held & Hheld & Hsum).
  exists held. split; [assumption|]. rewrite Hsum, dval_zero. ring.
Qed.

End TotalBalance.

Lemma total_balance_is_the_sum_of_the_balances_witness :
  let b := Bank_init.2 in
  let c := mkCustomer "CUST-1001" "John Doe" "john.doe@example.com" "555-0101"
             [("ACC-2001", 0%nat); ("ACC-2002", 1%nat)] [] in
  customer_heap b !! 0%nat = Some c ∧
  Customer_get_total_balance 0 b = (Ok (D 6000 0), b) ∧
  flags_Inexact (world b) = false ∧
  ∃ held,
    Forall2 (λ account a, heap (world b) !! account = Some a)
      (dict_values (customer_accounts c)) held ∧
    (dval (D 6000 0) == foldr (λ a s, dval (balance a) + s) 0 held)%Q.
Proof.
  assert (Hc : customer_heap Bank_init.2 !! 0%nat =
               Some (mkCustomer "CUST-1001" "John Doe" "john.doe@example.com" "555-0101"
                       [("ACC-2001", 0%nat); ("ACC-2002", 1%nat)] []))
    by (vm_compute; reflexivity).
  assert (H : Customer_get_total_balance 0 Bank_init.2 = (Ok (D 6000 0), Bank_init.2))
    by (vm_compute; reflexivity).
  assert (Hf : flags_Inexact (world Bank_init.2) = false) by (vm_compute; reflexivity).
  split; [exact Hc|]. split; [exact H|]. split; [exact Hf|].
  exact (total_balance_is_the_sum_of_the_balances _ _ _ _ _ Hc H Hf).
Defined.

(** ** The module [banksystem.py] *)

(** X26.  [BankAccount.withdraw] never raises and never overdraws.  An
    amount above zero that the balance covers is taken off, and nothing is
    printed; any other amount leaves the balance as it was and prints one
    line; in both cases the call returns the balance it leaves, and a
    balance that was not negative is not negative afterwards. *)
Theorem toy_withdraw_never_raises_and_never_overdraws
    (amount : Z) (self : BankSystem.BankAccount) :
  ∃ self' lines,
    BankSystem.withdraw amount self = (Returned (BankSystem.balance self', lines), self') ∧
    BankSystem.owner self' = BankSystem.owner self ∧
    ((0 < amount <= BankSystem.balance self ∧
      BankSystem.balance self' = BankSystem.balance self - amount ∧ lines = []) ∨
     (¬ (0 < amount <= BankSystem.balance self) ∧
      self' = self ∧ length lines = 1%nat)) ∧
    (0 <= BankSystem.balance self → 0 <= BankSystem.balance self').
Proof.
  unfold BankSystem.withdraw, BankSystem.withdraw_try, raise, get_state, modify,
    mbind, M_bind.
  destruct (Z.ltb_spec 0 amount) as [Hpos|Hneg]; simpl.
  - destruct (Z.ltb_spec (BankSystem.balance self) amount) as [Hover|Hok]; simpl.
    + exists self, ["Insufficient funds"].
      split; [reflexivity|]. split; [reflexivity|]. split; [|lia].
      right. split; [lia|]. split; reflexivity.
    + exists (BankSystem.mkBankAccount (BankSystem.owner self)
                (BankSystem.balance self - amount)), [].
      split; [reflexivity|]. split; [reflexivity|]. simpl. split; [|lia].
      left. split; [lia|]. split; reflexivity.
  - exists self, ["Withdrawal amount must be greater than zero"].
    split; [reflexivity|]. split; [reflexivity|]. split; [|lia].
    right. split; [lia|]. split; reflexivity.
Qed.

Lemma countdown_loop_prints (fuel : nat) : ∀ n : Z,
  (Z.to_nat n ≤ fuel)%nat →
  BankSystem.countdown_loop fuel n =
    map (λ k, n - Z.of_nat k) (seq 0 (Z.to_nat (if 3 <=? n then n - 2 else n))).
Proof.
  induction fuel as [|fuel IH]; intros n Hfuel.
  - simpl. assert (n <= 0) by lia.
    destruct (Z.leb_spec 3 n); [lia|]. replace (Z.to_nat n) with 0%nat by lia. reflexivity.
  - cbn [BankSystem.countdown_loop].
    destruct (Z.ltb_spec 0 n) as [Hpos|Hneg].
    2:{ destruct (Z.leb_spec 3 n); [lia|].
        replace (Z.to_nat n) with 0%nat by lia. reflexivity. }
    cbv zeta. destruct (Z.eqb_spec (n - 1) 2) as [H3|Hne].
    + assert (n = 3) as -> by lia. reflexivity.
    + rewrite IH by lia.
      assert (Hcount : Z.to_nat (if 3 <=? n then n - 2 else n) =
                       S (Z.to_nat (if 3 <=? n - 1 then n - 1 - 2 else n - 1))).
      { destruct (Z.leb_spec 3 n), (Z.leb_spec 3 (n - 1)); lia. }
      rewrite Hcount. cbn [seq map]. f_equal; [lia|].
      rewrite <- seq_shift, map_map. apply map_ext. intros k. lia.
Qed.

(** X27.  [countdown] started at 3 or above prints the numbers from [n]
    down to 3 and stops there, at the [break]: it never prints 2 or 1.
    Started at 1 or 2 it prints down to 1, and below 1 it prints
    nothing. *)
Theorem countdown_breaks_before_two (n : Z) :
  BankSystem.countdown n =
    map (λ k, n - Z.of_nat k) (seq 0 (Z.to_nat (if 3 <=? n then n - 2 else n))).
Proof. unfold BankSystem.countdown. apply countdown_loop_prints. lia. Qed.
